(** * gerrit-clone: clone command construction, git error triage and
      repository queries

    A shallow embedding of [src/gerrit_clone/clone_utils.py] and
    [src/gerrit_clone/git_utils.py].

    Conventions of the embedding.
    - A Python [str] is a [str]: a sequence of Unicode code points, each a
      number; a literal is read as UTF-8.  [str.lower], [str.upper],
      [str.strip], the [in] operator and the digit class of [re] are the
      functions of module [PyStr], over the character tables of Unicode
      14.0 (the database of CPython 3.11).
    - A Python [int] is a [Z]; [None] is [None] of an [option].
    - A [pathlib.Path] is represented by the text [str()] gives for it.
    - A Python call that may raise returns a [result]: either a value or
      the exception raised.  The tests [Path.exists] and [Path.is_dir] are
      such calls: they raise the [OSError] of the underlying [stat] unless
      it says that the path is absent. *)

From Stdlib Require Import Bool List NArith ZArith Lia Ascii String.
From Stdlib Require Import DecimalString.
From Stdlib Require DecimalZ.
From Stdlib Require Strings.Byte.
Import ListNotations.

(** ** Python strings *)

Module PyStr.

(** A text: its code points, first to last. *)
Inductive str : Type :=
| Empty : str
| Char (c : N) (rest : str).

(** The value of a UTF-8 continuation byte. *)
Definition continuation (b : Byte.byte) : option N :=
  let n := Byte.to_N b in
  if ((128 <=? n) && (n <=? 191))%N then Some (n - 128)%N else None.

(** The text a literal stands for: its bytes read as UTF-8. *)
Fixpoint str_of_bytes (l : list Byte.byte) : option str :=
  match l with
  | [] => Some Empty
  | b :: rest =>
      let n := Byte.to_N b in
      if (n <? 128)%N then option_map (Char n) (str_of_bytes rest)
      else if ((194 <=? n) && (n <=? 223))%N then
        match rest with
        | b1 :: rest1 =>
            match continuation b1 with
            | Some c1 =>
                option_map (Char ((n - 192) * 64 + c1)%N) (str_of_bytes rest1)
            | None => None
            end
        | _ => None
        end
      else if ((224 <=? n) && (n <=? 239))%N then
        match rest with
        | b1 :: b2 :: rest2 =>
            match continuation b1, continuation b2 with
            | Some c1, Some c2 =>
                option_map (Char (((n - 224) * 64 + c1) * 64 + c2)%N)
                  (str_of_bytes rest2)
            | _, _ => None
            end
        | _ => None
        end
      else if ((240 <=? n) && (n <=? 244))%N then
        match rest with
        | b1 :: b2 :: b3 :: rest3 =>
            match continuation b1, continuation b2, continuation b3 with
            | Some c1, Some c2, Some c3 =>
                option_map
                  (Char ((((n - 240) * 64 + c1) * 64 + c2) * 64 + c3)%N)
                  (str_of_bytes rest3)
            | _, _, _ => None
            end
        | _ => None
        end
      else None
  end.

Definition bytes_of_numbers (ns : list N) : option (list Byte.byte) :=
  fold_right
    (fun n acc =>
       match Byte.of_N n, acc with
       | Some b, Some l => Some (b :: l)
       | _, _ => None
       end)
    (Some []) ns.

(** The UTF-8 bytes of a code point, for printing. *)
Definition bytes_of_char (c : N) : option (list Byte.byte) :=
  if (c <? 128)%N then bytes_of_numbers [c]
  else if (c <? 2048)%N then bytes_of_numbers [192 + c / 64; 128 + c mod 64]%N
  else if (c <? 65536)%N then
    if ((55296 <=? c) && (c <=? 57343))%N then None
    else bytes_of_numbers
           [224 + c / 4096; 128 + (c / 64) mod 64; 128 + c mod 64]%N
  else if (c <? 1114112)%N then
    bytes_of_numbers
      [240 + c / 262144; 128 + (c / 4096) mod 64; 128 + (c / 64) mod 64;
       128 + c mod 64]%N
  else None.

Fixpoint bytes_of_str (s : str) : option (list Byte.byte) :=
  match s with
  | Empty => Some []
  | Char c r =>
      match bytes_of_char c, bytes_of_str r with
      | Some a, Some b => Some (a ++ b)%list
      | _, _ => None
      end
  end.

Declare Scope str_scope.
Delimit Scope str_scope with py.
Bind Scope str_scope with str.
String Notation str str_of_bytes bytes_of_str : str_scope.

(** [x + y] on texts. *)
Fixpoint str_app (x y : str) : str :=
  match x with
  | Empty => y
  | Char c r => Char c (str_app r y)
  end.

Infix "++" := str_app : str_scope.

Open Scope str_scope.

(** The text with the given code points. *)
Fixpoint of_list (l : list N) : str :=
  match l with
  | [] => Empty
  | c :: r => Char c (of_list r)
  end.

(** An ASCII text given as a Rocq string. *)
Fixpoint of_ascii (s : String.string) : str :=
  match s with
  | EmptyString => Empty
  | String c r => Char (N_of_ascii c) (of_ascii r)
  end.

(** [len(s)]. *)
Fixpoint str_length (s : str) : nat :=
  match s with
  | Empty => O
  | Char _ r => S (str_length r)
  end.

(** [x == y]. *)
Fixpoint str_eqb (x y : str) : bool :=
  match x, y with
  | Empty, Empty => true
  | Char a x', Char b y' => (a =? b)%N && str_eqb x' y'
  | _, _ => false
  end.

(** [c] lies in one of the ranges [(first, last)] of a table. *)
Definition in_ranges (table : list (N * N)) (c : N) : bool :=
  existsb (fun range => (fst range <=? c)%N && (c <=? snd range)%N) table.

(** A case mapping table: [(first, last, step, image)] maps the code
    points [first], [first + step], ... up to [last] to [image],
    [image + step], ... *)
Fixpoint map_lookup (table : list (N * N * N * N)) (c : N) : option N :=
  match table with
  | [] => None
  | (first, last, step, image) :: rest =>
      if ((first <=? c) && (c <=? last) && ((c - first) mod step =? 0))%N
      then Some (image + (c - first))%N
      else map_lookup rest c
  end.

(** The mappings of one character to several, looked up first. *)
Fixpoint special_lookup (table : list (N * list N)) (c : N) : option str :=
  match table with
  | [] => None
  | (key, image) :: rest =>
      if (key =? c)%N then Some (of_list image) else special_lookup rest c
  end.

(** White space ([str.isspace], what [str.strip] removes). *)
Definition whitespace : list N :=
  [
   9; 10; 11; 12; 13; 28; 29; 30; 31; 32; 133; 160; 5760; 8192; 8193; 8194;
   8195; 8196; 8197; 8198; 8199; 8200; 8201; 8202; 8232; 8233; 8239; 8287;
   12288
  ]%N.

Definition is_space (c : N) : bool :=
  existsb (fun w => (w =? c)%N) whitespace.

(** The decimal digits (general category Nd): the class [\d] of [re] on a
    [str]. *)
Definition decimal_digit_ranges : list (N * N) :=
  [
   (48, 57); (1632, 1641); (1776, 1785); (1984, 1993); (2406, 2415);
   (2534, 2543); (2662, 2671); (2790, 2799); (2918, 2927); (3046, 3055);
   (3174, 3183); (3302, 3311); (3430, 3439); (3558, 3567); (3664, 3673);
   (3792, 3801); (3872, 3881); (4160, 4169); (4240, 4249); (6112, 6121);
   (6160, 6169); (6470, 6479); (6608, 6617); (6784, 6793); (6800, 6809);
   (6992, 7001); (7088, 7097); (7232, 7241); (7248, 7257); (42528, 42537);
   (43216, 43225); (43264, 43273); (43472, 43481); (43504, 43513);
   (43600, 43609); (44016, 44025); (65296, 65305); (66720, 66729);
   (68912, 68921); (69734, 69743); (69872, 69881); (69942, 69951);
   (70096, 70105); (70384, 70393); (70736, 70745); (70864, 70873);
   (71248, 71257); (71360, 71369); (71472, 71481); (71904, 71913);
   (72016, 72025); (72784, 72793); (73040, 73049); (73120, 73129);
   (92768, 92777); (92864, 92873); (93008, 93017); (120782, 120831);
   (123200, 123209); (123632, 123641); (125264, 125273); (130032, 130041)
  ]%N.

Definition is_digit (c : N) : bool := in_ranges decimal_digit_ranges c.

(** The case-ignorable characters. *)
Definition case_ignorable_ranges : list (N * N) :=
  [
   (39, 39); (46, 46); (58, 58); (94, 94); (96, 96); (168, 168); (173, 173);
   (175, 175); (180, 180); (183, 184); (688, 879); (884, 885); (890, 890);
   (900, 901); (903, 903); (1155, 1161); (1369, 1369); (1375, 1375);
   (1425, 1469); (1471, 1471); (1473, 1474); (1476, 1477); (1479, 1479);
   (1524, 1524); (1536, 1541); (1552, 1562); (1564, 1564); (1600, 1600);
   (1611, 1631); (1648, 1648); (1750, 1757); (1759, 1768); (1770, 1773);
   (1807, 1807); (1809, 1809); (1840, 1866); (1958, 1968); (2027, 2037);
   (2042, 2042); (2045, 2045); (2070, 2093); (2137, 2139); (2184, 2184);
   (2192, 2193); (2200, 2207); (2249, 2306); (2362, 2362); (2364, 2364);
   (2369, 2376); (2381, 2381); (2385, 2391); (2402, 2403); (2417, 2417);
   (2433, 2433); (2492, 2492); (2497, 2500); (2509, 2509); (2530, 2531);
   (2558, 2558); (2561, 2562); (2620, 2620); (2625, 2626); (2631, 2632);
   (2635, 2637); (2641, 2641); (2672, 2673); (2677, 2677); (2689, 2690);
   (2748, 2748); (2753, 2757); (2759, 2760); (2765, 2765); (2786, 2787);
   (2810, 2815); (2817, 2817); (2876, 2876); (2879, 2879); (2881, 2884);
   (2893, 2893); (2901, 2902); (2914, 2915); (2946, 2946); (3008, 3008);
   (3021, 3021); (3072, 3072); (3076, 3076); (3132, 3132); (3134, 3136);
   (3142, 3144); (3146, 3149); (3157, 3158); (3170, 3171); (3201, 3201);
   (3260, 3260); (3263, 3263); (3270, 3270); (3276, 3277); (3298, 3299);
   (3328, 3329); (3387, 3388); (3393, 3396); (3405, 3405); (3426, 3427);
   (3457, 3457); (3530, 3530); (3538, 3540); (3542, 3542); (3633, 3633);
   (3636, 3642); (3654, 3662); (3761, 3761); (3764, 3772); (3782, 3782);
   (3784, 3789); (3864, 3865); (3893, 3893); (3895, 3895); (3897, 3897);
   (3953, 3966); (3968, 3972); (3974, 3975); (3981, 3991); (3993, 4028);
   (4038, 4038); (4141, 4144); (4146, 4151); (4153, 4154); (4157, 4158);
   (4184, 4185); (4190, 4192); (4209, 4212); (4226, 4226); (4229, 4230);
   (4237, 4237); (4253, 4253); (4348, 4348); (4957, 4959); (5906, 5908);
   (5938, 5939); (5970, 5971); (6002, 6003); (6068, 6069); (6071, 6077);
   (6086, 6086); (6089, 6099); (6103, 6103); (6109, 6109); (6155, 6159);
   (6211, 6211); (6277, 6278); (6313, 6313); (6432, 6434); (6439, 6440);
   (6450, 6450); (6457, 6459); (6679, 6680); (6683, 6683); (6742, 6742);
   (6744, 6750); (6752, 6752); (6754, 6754); (6757, 6764); (6771, 6780);
   (6783, 6783); (6823, 6823); (6832, 6862); (6912, 6915); (6964, 6964);
   (6966, 6970); (6972, 6972); (6978, 6978); (7019, 7027); (7040, 7041);
   (7074, 7077); (7080, 7081); (7083, 7085); (7142, 7142); (7144, 7145);
   (7149, 7149); (7151, 7153); (7212, 7219); (7222, 7223); (7288, 7293);
   (7376, 7378); (7380, 7392); (7394, 7400); (7405, 7405); (7412, 7412);
   (7416, 7417); (7468, 7530); (7544, 7544); (7579, 7679); (8125, 8125);
   (8127, 8129); (8141, 8143); (8157, 8159); (8173, 8175); (8189, 8190);
   (8203, 8207); (8216, 8217); (8228, 8228); (8231, 8231); (8234, 8238);
   (8288, 8292); (8294, 8303); (8305, 8305); (8319, 8319); (8336, 8348);
   (8400, 8432); (11388, 11389); (11503, 11505); (11631, 11631);
   (11647, 11647); (11744, 11775); (11823, 11823); (12293, 12293);
   (12330, 12333); (12337, 12341); (12347, 12347); (12441, 12446);
   (12540, 12542); (40981, 40981); (42232, 42237); (42508, 42508);
   (42607, 42610); (42612, 42621); (42623, 42623); (42652, 42655);
   (42736, 42737); (42752, 42785); (42864, 42864); (42888, 42890);
   (42994, 42996); (43000, 43001); (43010, 43010); (43014, 43014);
   (43019, 43019); (43045, 43046); (43052, 43052); (43204, 43205);
   (43232, 43249); (43263, 43263); (43302, 43309); (43335, 43345);
   (43392, 43394); (43443, 43443); (43446, 43449); (43452, 43453);
   (43471, 43471); (43493, 43494); (43561, 43566); (43569, 43570);
   (43573, 43574); (43587, 43587); (43596, 43596); (43632, 43632);
   (43644, 43644); (43696, 43696); (43698, 43700); (43703, 43704);
   (43710, 43711); (43713, 43713); (43741, 43741); (43756, 43757);
   (43763, 43764); (43766, 43766); (43867, 43871); (43881, 43883);
   (44005, 44005); (44008, 44008); (44013, 44013); (64286, 64286);
   (64434, 64450); (65024, 65039); (65043, 65043); (65056, 65071);
   (65106, 65106); (65109, 65109); (65279, 65279); (65287, 65287);
   (65294, 65294); (65306, 65306); (65342, 65342); (65344, 65344);
   (65392, 65392); (65438, 65439); (65507, 65507); (65529, 65531);
   (66045, 66045); (66272, 66272); (66422, 66426); (67456, 67461);
   (67463, 67504); (67506, 67514); (68097, 68099); (68101, 68102);
   (68108, 68111); (68152, 68154); (68159, 68159); (68325, 68326);
   (68900, 68903); (69291, 69292); (69446, 69456); (69506, 69509);
   (69633, 69633); (69688, 69702); (69744, 69744); (69747, 69748);
   (69759, 69761); (69811, 69814); (69817, 69818); (69821, 69821);
   (69826, 69826); (69837, 69837); (69888, 69890); (69927, 69931);
   (69933, 69940); (70003, 70003); (70016, 70017); (70070, 70078);
   (70089, 70092); (70095, 70095); (70191, 70193); (70196, 70196);
   (70198, 70199); (70206, 70206); (70367, 70367); (70371, 70378);
   (70400, 70401); (70459, 70460); (70464, 70464); (70502, 70508);
   (70512, 70516); (70712, 70719); (70722, 70724); (70726, 70726);
   (70750, 70750); (70835, 70840); (70842, 70842); (70847, 70848);
   (70850, 70851); (71090, 71093); (71100, 71101); (71103, 71104);
   (71132, 71133); (71219, 71226); (71229, 71229); (71231, 71232);
   (71339, 71339); (71341, 71341); (71344, 71349); (71351, 71351);
   (71453, 71455); (71458, 71461); (71463, 71467); (71727, 71735);
   (71737, 71738); (71995, 71996); (71998, 71998); (72003, 72003);
   (72148, 72151); (72154, 72155); (72160, 72160); (72193, 72202);
   (72243, 72248); (72251, 72254); (72263, 72263); (72273, 72278);
   (72281, 72283); (72330, 72342); (72344, 72345); (72752, 72758);
   (72760, 72765); (72767, 72767); (72850, 72871); (72874, 72880);
   (72882, 72883); (72885, 72886); (73009, 73014); (73018, 73018);
   (73020, 73021); (73023, 73029); (73031, 73031); (73104, 73105);
   (73109, 73109); (73111, 73111); (73459, 73460); (78896, 78904);
   (92912, 92916); (92976, 92982); (92992, 92995); (94031, 94031);
   (94095, 94111); (94176, 94177); (94179, 94180); (110576, 110579);
   (110581, 110587); (110589, 110590); (113821, 113822); (113824, 113827);
   (118528, 118573); (118576, 118598); (119143, 119145); (119155, 119170);
   (119173, 119179); (119210, 119213); (119362, 119364); (121344, 121398);
   (121403, 121452); (121461, 121461); (121476, 121476); (121499, 121503);
   (121505, 121519); (122880, 122886); (122888, 122904); (122907, 122913);
   (122915, 122916); (122918, 122922); (123184, 123197); (123566, 123566);
   (123628, 123631); (125136, 125142); (125252, 125259); (127995, 127999);
   (917505, 917505); (917536, 917631); (917760, 917999)
  ]%N.

Definition is_case_ignorable (c : N) : bool :=
  in_ranges case_ignorable_ranges c.

(** The cased characters among those that are not case-ignorable: the
    context rule of the capital sigma asks whether a character is cased
    only after finding that it is not case-ignorable. *)
Definition cased_ranges : list (N * N) :=
  [
   (65, 90); (97, 122); (170, 170); (181, 181); (186, 186); (192, 214);
   (216, 246); (248, 442); (444, 447); (452, 659); (661, 687); (880, 883);
   (886, 887); (891, 893); (895, 895); (902, 902); (904, 906); (908, 908);
   (910, 929); (931, 1013); (1015, 1153); (1162, 1327); (1329, 1366);
   (1376, 1416); (4256, 4293); (4295, 4295); (4301, 4301); (4304, 4346);
   (4349, 4351); (5024, 5109); (5112, 5117); (7296, 7304); (7312, 7354);
   (7357, 7359); (7424, 7467); (7531, 7543); (7545, 7578); (7680, 7957);
   (7960, 7965); (7968, 8005); (8008, 8013); (8016, 8023); (8025, 8025);
   (8027, 8027); (8029, 8029); (8031, 8061); (8064, 8116); (8118, 8124);
   (8126, 8126); (8130, 8132); (8134, 8140); (8144, 8147); (8150, 8155);
   (8160, 8172); (8178, 8180); (8182, 8188); (8450, 8450); (8455, 8455);
   (8458, 8467); (8469, 8469); (8473, 8477); (8484, 8484); (8486, 8486);
   (8488, 8488); (8490, 8493); (8495, 8500); (8505, 8505); (8508, 8511);
   (8517, 8521); (8526, 8526); (8544, 8575); (8579, 8580); (9398, 9449);
   (11264, 11387); (11390, 11492); (11499, 11502); (11506, 11507);
   (11520, 11557); (11559, 11559); (11565, 11565); (42560, 42605);
   (42624, 42651); (42786, 42863); (42865, 42887); (42891, 42894);
   (42896, 42954); (42960, 42961); (42963, 42963); (42965, 42969);
   (42997, 42998); (43002, 43002); (43824, 43866); (43872, 43880);
   (43888, 43967); (64256, 64262); (64275, 64279); (65313, 65338);
   (65345, 65370); (66560, 66639); (66736, 66771); (66776, 66811);
   (66928, 66938); (66940, 66954); (66956, 66962); (66964, 66965);
   (66967, 66977); (66979, 66993); (66995, 67001); (67003, 67004);
   (68736, 68786); (68800, 68850); (71840, 71903); (93760, 93823);
   (119808, 119892); (119894, 119964); (119966, 119967); (119970, 119970);
   (119973, 119974); (119977, 119980); (119982, 119993); (119995, 119995);
   (119997, 120003); (120005, 120069); (120071, 120074); (120077, 120084);
   (120086, 120092); (120094, 120121); (120123, 120126); (120128, 120132);
   (120134, 120134); (120138, 120144); (120146, 120485); (120488, 120512);
   (120514, 120538); (120540, 120570); (120572, 120596); (120598, 120628);
   (120630, 120654); (120656, 120686); (120688, 120712); (120714, 120744);
   (120746, 120770); (120772, 120779); (122624, 122633); (122635, 122654);
   (125184, 125251); (127280, 127305); (127312, 127337); (127344, 127369)
  ]%N.

Definition is_cased (c : N) : bool := in_ranges cased_ranges c.

(** The lower-case mappings. *)
Definition lower_ranges : list (N * N * N * N) :=
  [
   (65, 90, 1, 97); (192, 214, 1, 224); (216, 222, 1, 248);
   (256, 302, 2, 257); (306, 310, 2, 307); (313, 327, 2, 314);
   (330, 374, 2, 331); (376, 376, 1, 255); (377, 381, 2, 378);
   (385, 385, 1, 595); (386, 388, 2, 387); (390, 390, 1, 596);
   (391, 391, 1, 392); (393, 394, 1, 598); (395, 395, 1, 396);
   (398, 398, 1, 477); (399, 399, 1, 601); (400, 400, 1, 603);
   (401, 401, 1, 402); (403, 403, 1, 608); (404, 404, 1, 611);
   (406, 406, 1, 617); (407, 407, 1, 616); (408, 408, 1, 409);
   (412, 412, 1, 623); (413, 413, 1, 626); (415, 415, 1, 629);
   (416, 420, 2, 417); (422, 422, 1, 640); (423, 423, 1, 424);
   (425, 425, 1, 643); (428, 428, 1, 429); (430, 430, 1, 648);
   (431, 431, 1, 432); (433, 434, 1, 650); (435, 437, 2, 436);
   (439, 439, 1, 658); (440, 440, 1, 441); (444, 444, 1, 445);
   (452, 452, 1, 454); (453, 453, 1, 454); (455, 455, 1, 457);
   (456, 456, 1, 457); (458, 458, 1, 460); (459, 475, 2, 460);
   (478, 494, 2, 479); (497, 497, 1, 499); (498, 500, 2, 499);
   (502, 502, 1, 405); (503, 503, 1, 447); (504, 542, 2, 505);
   (544, 544, 1, 414); (546, 562, 2, 547); (570, 570, 1, 11365);
   (571, 571, 1, 572); (573, 573, 1, 410); (574, 574, 1, 11366);
   (577, 577, 1, 578); (579, 579, 1, 384); (580, 580, 1, 649);
   (581, 581, 1, 652); (582, 590, 2, 583); (880, 882, 2, 881);
   (886, 886, 1, 887); (895, 895, 1, 1011); (902, 902, 1, 940);
   (904, 906, 1, 941); (908, 908, 1, 972); (910, 911, 1, 973);
   (913, 929, 1, 945); (931, 939, 1, 963); (975, 975, 1, 983);
   (984, 1006, 2, 985); (1012, 1012, 1, 952); (1015, 1015, 1, 1016);
   (1017, 1017, 1, 1010); (1018, 1018, 1, 1019); (1021, 1023, 1, 891);
   (1024, 1039, 1, 1104); (1040, 1071, 1, 1072); (1120, 1152, 2, 1121);
   (1162, 1214, 2, 1163); (1216, 1216, 1, 1231); (1217, 1229, 2, 1218);
   (1232, 1326, 2, 1233); (1329, 1366, 1, 1377); (4256, 4293, 1, 11520);
   (4295, 4295, 1, 11559); (4301, 4301, 1, 11565); (5024, 5103, 1, 43888);
   (5104, 5109, 1, 5112); (7312, 7354, 1, 4304); (7357, 7359, 1, 4349);
   (7680, 7828, 2, 7681); (7838, 7838, 1, 223); (7840, 7934, 2, 7841);
   (7944, 7951, 1, 7936); (7960, 7965, 1, 7952); (7976, 7983, 1, 7968);
   (7992, 7999, 1, 7984); (8008, 8013, 1, 8000); (8025, 8031, 2, 8017);
   (8040, 8047, 1, 8032); (8072, 8079, 1, 8064); (8088, 8095, 1, 8080);
   (8104, 8111, 1, 8096); (8120, 8121, 1, 8112); (8122, 8123, 1, 8048);
   (8124, 8124, 1, 8115); (8136, 8139, 1, 8050); (8140, 8140, 1, 8131);
   (8152, 8153, 1, 8144); (8154, 8155, 1, 8054); (8168, 8169, 1, 8160);
   (8170, 8171, 1, 8058); (8172, 8172, 1, 8165); (8184, 8185, 1, 8056);
   (8186, 8187, 1, 8060); (8188, 8188, 1, 8179); (8486, 8486, 1, 969);
   (8490, 8490, 1, 107); (8491, 8491, 1, 229); (8498, 8498, 1, 8526);
   (8544, 8559, 1, 8560); (8579, 8579, 1, 8580); (9398, 9423, 1, 9424);
   (11264, 11311, 1, 11312); (11360, 11360, 1, 11361);
   (11362, 11362, 1, 619); (11363, 11363, 1, 7549); (11364, 11364, 1, 637);
   (11367, 11371, 2, 11368); (11373, 11373, 1, 593); (11374, 11374, 1, 625);
   (11375, 11375, 1, 592); (11376, 11376, 1, 594); (11378, 11378, 1, 11379);
   (11381, 11381, 1, 11382); (11390, 11391, 1, 575);
   (11392, 11490, 2, 11393); (11499, 11501, 2, 11500);
   (11506, 11506, 1, 11507); (42560, 42604, 2, 42561);
   (42624, 42650, 2, 42625); (42786, 42798, 2, 42787);
   (42802, 42862, 2, 42803); (42873, 42875, 2, 42874);
   (42877, 42877, 1, 7545); (42878, 42886, 2, 42879);
   (42891, 42891, 1, 42892); (42893, 42893, 1, 613);
   (42896, 42898, 2, 42897); (42902, 42920, 2, 42903);
   (42922, 42922, 1, 614); (42923, 42923, 1, 604); (42924, 42924, 1, 609);
   (42925, 42925, 1, 620); (42926, 42926, 1, 618); (42928, 42928, 1, 670);
   (42929, 42929, 1, 647); (42930, 42930, 1, 669); (42931, 42931, 1, 43859);
   (42932, 42946, 2, 42933); (42948, 42948, 1, 42900);
   (42949, 42949, 1, 642); (42950, 42950, 1, 7566); (42951, 42953, 2, 42952);
   (42960, 42960, 1, 42961); (42966, 42968, 2, 42967);
   (42997, 42997, 1, 42998); (65313, 65338, 1, 65345);
   (66560, 66599, 1, 66600); (66736, 66771, 1, 66776);
   (66928, 66938, 1, 66967); (66940, 66954, 1, 66979);
   (66956, 66962, 1, 66995); (66964, 66965, 1, 67003);
   (68736, 68786, 1, 68800); (71840, 71871, 1, 71872);
   (93760, 93791, 1, 93792); (125184, 125217, 1, 125218)
  ]%N.

Definition lower_special : list (N * list N) :=
  [
   (304, [105; 775])
  ]%N.

(** The upper-case mappings. *)
Definition upper_ranges : list (N * N * N * N) :=
  [
   (97, 122, 1, 65); (181, 181, 1, 924); (224, 246, 1, 192);
   (248, 254, 1, 216); (255, 255, 1, 376); (257, 303, 2, 256);
   (305, 305, 1, 73); (307, 311, 2, 306); (314, 328, 2, 313);
   (331, 375, 2, 330); (378, 382, 2, 377); (383, 383, 1, 83);
   (384, 384, 1, 579); (387, 389, 2, 386); (392, 392, 1, 391);
   (396, 396, 1, 395); (402, 402, 1, 401); (405, 405, 1, 502);
   (409, 409, 1, 408); (410, 410, 1, 573); (414, 414, 1, 544);
   (417, 421, 2, 416); (424, 424, 1, 423); (429, 429, 1, 428);
   (432, 432, 1, 431); (436, 438, 2, 435); (441, 441, 1, 440);
   (445, 445, 1, 444); (447, 447, 1, 503); (453, 453, 1, 452);
   (454, 454, 1, 452); (456, 456, 1, 455); (457, 457, 1, 455);
   (459, 459, 1, 458); (460, 460, 1, 458); (462, 476, 2, 461);
   (477, 477, 1, 398); (479, 495, 2, 478); (498, 498, 1, 497);
   (499, 499, 1, 497); (501, 501, 1, 500); (505, 543, 2, 504);
   (547, 563, 2, 546); (572, 572, 1, 571); (575, 576, 1, 11390);
   (578, 578, 1, 577); (583, 591, 2, 582); (592, 592, 1, 11375);
   (593, 593, 1, 11373); (594, 594, 1, 11376); (595, 595, 1, 385);
   (596, 596, 1, 390); (598, 599, 1, 393); (601, 601, 1, 399);
   (603, 603, 1, 400); (604, 604, 1, 42923); (608, 608, 1, 403);
   (609, 609, 1, 42924); (611, 611, 1, 404); (613, 613, 1, 42893);
   (614, 614, 1, 42922); (616, 616, 1, 407); (617, 617, 1, 406);
   (618, 618, 1, 42926); (619, 619, 1, 11362); (620, 620, 1, 42925);
   (623, 623, 1, 412); (625, 625, 1, 11374); (626, 626, 1, 413);
   (629, 629, 1, 415); (637, 637, 1, 11364); (640, 640, 1, 422);
   (642, 642, 1, 42949); (643, 643, 1, 425); (647, 647, 1, 42929);
   (648, 648, 1, 430); (649, 649, 1, 580); (650, 651, 1, 433);
   (652, 652, 1, 581); (658, 658, 1, 439); (669, 669, 1, 42930);
   (670, 670, 1, 42928); (837, 837, 1, 921); (881, 883, 2, 880);
   (887, 887, 1, 886); (891, 893, 1, 1021); (940, 940, 1, 902);
   (941, 943, 1, 904); (945, 961, 1, 913); (962, 962, 1, 931);
   (963, 971, 1, 931); (972, 972, 1, 908); (973, 974, 1, 910);
   (976, 976, 1, 914); (977, 977, 1, 920); (981, 981, 1, 934);
   (982, 982, 1, 928); (983, 983, 1, 975); (985, 1007, 2, 984);
   (1008, 1008, 1, 922); (1009, 1009, 1, 929); (1010, 1010, 1, 1017);
   (1011, 1011, 1, 895); (1013, 1013, 1, 917); (1016, 1016, 1, 1015);
   (1019, 1019, 1, 1018); (1072, 1103, 1, 1040); (1104, 1119, 1, 1024);
   (1121, 1153, 2, 1120); (1163, 1215, 2, 1162); (1218, 1230, 2, 1217);
   (1231, 1231, 1, 1216); (1233, 1327, 2, 1232); (1377, 1414, 1, 1329);
   (4304, 4346, 1, 7312); (4349, 4351, 1, 7357); (5112, 5117, 1, 5104);
   (7296, 7296, 1, 1042); (7297, 7297, 1, 1044); (7298, 7298, 1, 1054);
   (7299, 7300, 1, 1057); (7301, 7301, 1, 1058); (7302, 7302, 1, 1066);
   (7303, 7303, 1, 1122); (7304, 7304, 1, 42570); (7545, 7545, 1, 42877);
   (7549, 7549, 1, 11363); (7566, 7566, 1, 42950); (7681, 7829, 2, 7680);
   (7835, 7835, 1, 7776); (7841, 7935, 2, 7840); (7936, 7943, 1, 7944);
   (7952, 7957, 1, 7960); (7968, 7975, 1, 7976); (7984, 7991, 1, 7992);
   (8000, 8005, 1, 8008); (8017, 8023, 2, 8025); (8032, 8039, 1, 8040);
   (8048, 8049, 1, 8122); (8050, 8053, 1, 8136); (8054, 8055, 1, 8154);
   (8056, 8057, 1, 8184); (8058, 8059, 1, 8170); (8060, 8061, 1, 8186);
   (8112, 8113, 1, 8120); (8126, 8126, 1, 921); (8144, 8145, 1, 8152);
   (8160, 8161, 1, 8168); (8165, 8165, 1, 8172); (8526, 8526, 1, 8498);
   (8560, 8575, 1, 8544); (8580, 8580, 1, 8579); (9424, 9449, 1, 9398);
   (11312, 11359, 1, 11264); (11361, 11361, 1, 11360);
   (11365, 11365, 1, 570); (11366, 11366, 1, 574); (11368, 11372, 2, 11367);
   (11379, 11379, 1, 11378); (11382, 11382, 1, 11381);
   (11393, 11491, 2, 11392); (11500, 11502, 2, 11499);
   (11507, 11507, 1, 11506); (11520, 11557, 1, 4256);
   (11559, 11559, 1, 4295); (11565, 11565, 1, 4301);
   (42561, 42605, 2, 42560); (42625, 42651, 2, 42624);
   (42787, 42799, 2, 42786); (42803, 42863, 2, 42802);
   (42874, 42876, 2, 42873); (42879, 42887, 2, 42878);
   (42892, 42892, 1, 42891); (42897, 42899, 2, 42896);
   (42900, 42900, 1, 42948); (42903, 42921, 2, 42902);
   (42933, 42947, 2, 42932); (42952, 42954, 2, 42951);
   (42961, 42961, 1, 42960); (42967, 42969, 2, 42966);
   (42998, 42998, 1, 42997); (43859, 43859, 1, 42931);
   (43888, 43967, 1, 5024); (65345, 65370, 1, 65313);
   (66600, 66639, 1, 66560); (66776, 66811, 1, 66736);
   (66967, 66977, 1, 66928); (66979, 66993, 1, 66940);
   (66995, 67001, 1, 66956); (67003, 67004, 1, 66964);
   (68800, 68850, 1, 68736); (71872, 71903, 1, 71840);
   (93792, 93823, 1, 93760); (125218, 125251, 1, 125184)
  ]%N.

Definition upper_special : list (N * list N) :=
  [
   (223, [83; 83]); (329, [700; 78]); (496, [74; 780]);
   (912, [921; 776; 769]); (944, [933; 776; 769]); (1415, [1333; 1362]);
   (7830, [72; 817]); (7831, [84; 776]); (7832, [87; 778]);
   (7833, [89; 778]); (7834, [65; 702]); (8016, [933; 787]);
   (8018, [933; 787; 768]); (8020, [933; 787; 769]); (8022, [933; 787; 834]);
   (8064, [7944; 921]); (8065, [7945; 921]); (8066, [7946; 921]);
   (8067, [7947; 921]); (8068, [7948; 921]); (8069, [7949; 921]);
   (8070, [7950; 921]); (8071, [7951; 921]); (8072, [7944; 921]);
   (8073, [7945; 921]); (8074, [7946; 921]); (8075, [7947; 921]);
   (8076, [7948; 921]); (8077, [7949; 921]); (8078, [7950; 921]);
   (8079, [7951; 921]); (8080, [7976; 921]); (8081, [7977; 921]);
   (8082, [7978; 921]); (8083, [7979; 921]); (8084, [7980; 921]);
   (8085, [7981; 921]); (8086, [7982; 921]); (8087, [7983; 921]);
   (8088, [7976; 921]); (8089, [7977; 921]); (8090, [7978; 921]);
   (8091, [7979; 921]); (8092, [7980; 921]); (8093, [7981; 921]);
   (8094, [7982; 921]); (8095, [7983; 921]); (8096, [8040; 921]);
   (8097, [8041; 921]); (8098, [8042; 921]); (8099, [8043; 921]);
   (8100, [8044; 921]); (8101, [8045; 921]); (8102, [8046; 921]);
   (8103, [8047; 921]); (8104, [8040; 921]); (8105, [8041; 921]);
   (8106, [8042; 921]); (8107, [8043; 921]); (8108, [8044; 921]);
   (8109, [8045; 921]); (8110, [8046; 921]); (8111, [8047; 921]);
   (8114, [8122; 921]); (8115, [913; 921]); (8116, [902; 921]);
   (8118, [913; 834]); (8119, [913; 834; 921]); (8124, [913; 921]);
   (8130, [8138; 921]); (8131, [919; 921]); (8132, [905; 921]);
   (8134, [919; 834]); (8135, [919; 834; 921]); (8140, [919; 921]);
   (8146, [921; 776; 768]); (8147, [921; 776; 769]); (8150, [921; 834]);
   (8151, [921; 776; 834]); (8162, [933; 776; 768]); (8163, [933; 776; 769]);
   (8164, [929; 787]); (8166, [933; 834]); (8167, [933; 776; 834]);
   (8178, [8186; 921]); (8179, [937; 921]); (8180, [911; 921]);
   (8182, [937; 834]); (8183, [937; 834; 921]); (8188, [937; 921]);
   (64256, [70; 70]); (64257, [70; 73]); (64258, [70; 76]);
   (64259, [70; 70; 73]); (64260, [70; 70; 76]); (64261, [83; 84]);
   (64262, [83; 84]); (64275, [1348; 1350]); (64276, [1348; 1333]);
   (64277, [1348; 1339]); (64278, [1358; 1350]); (64279, [1348; 1341])
  ]%N.

(** The full lower-case mapping of one character. *)
Definition tolower (c : N) : str :=
  match special_lookup lower_special c with
  | Some image => image
  | None =>
      match map_lookup lower_ranges c with
      | Some image => Char image Empty
      | None => Char c Empty
      end
  end.

(** The full upper-case mapping of one character. *)
Definition toupper (c : N) : str :=
  match special_lookup upper_special c with
  | Some image => image
  | None =>
      match map_lookup upper_ranges c with
      | Some image => Char image Empty
      | None => Char c Empty
      end
  end.

(** The rest of a text is case-ignorable characters and then a cased
    one. *)
Fixpoint followed_by_cased (rest : str) : bool :=
  match rest with
  | Empty => false
  | Char c r => if is_case_ignorable c then followed_by_cased r else is_cased c
  end.

(** [s.lower()], left to right; [after_cased] says that what precedes is
    a cased character and then case-ignorable ones.  The capital sigma
    (931) becomes the final sigma (962) when it follows a cased character
    and none follows it, and the small sigma (963) otherwise. *)
Fixpoint lower_from (after_cased : bool) (s : str) : str :=
  match s with
  | Empty => Empty
  | Char c r =>
      let mapped :=
        if (c =? 931)%N then
          if after_cased && negb (followed_by_cased r)
          then Char 962%N Empty else Char 963%N Empty
        else tolower c in
      let after_cased' :=
        if is_case_ignorable c then after_cased else is_cased c in
      mapped ++ lower_from after_cased' r
  end.

Definition lower (s : str) : str := lower_from false s.

(** [s.upper()]. *)
Fixpoint upper (s : str) : str :=
  match s with
  | Empty => Empty
  | Char c r => toupper c ++ upper r
  end.

(** [s.startswith(p)]. *)
Fixpoint startswith (p s : str) : bool :=
  match p, s with
  | Empty, _ => true
  | Char _ _, Empty => false
  | Char a p', Char b s' => (a =? b)%N && startswith p' s'
  end.

(** [p in s] for two strings: [p] starts at some position of [s]. *)
Fixpoint str_in (p s : str) : bool :=
  startswith p s ||
  match s with
  | Empty => false
  | Char _ r => str_in p r
  end.

(** [s.lstrip()]. *)
Fixpoint lstrip (s : str) : str :=
  match s with
  | Empty => Empty
  | Char c r => if is_space c then lstrip r else s
  end.

(** [s.rstrip()]. *)
Fixpoint rstrip (s : str) : str :=
  match s with
  | Empty => Empty
  | Char c r =>
      match rstrip r with
      | Empty => if is_space c then Empty else Char c Empty
      | r' => Char c r'
      end
  end.

(** [s.strip()]. *)
Definition strip (s : str) : str := rstrip (lstrip s).

(** [bool(s)]: a string is true when it is not empty. *)
Definition truthy (s : str) : bool :=
  match s with
  | Empty => false
  | Char _ _ => true
  end.

(** [str(n)] for an [int]. *)
Definition str_of_int (n : Z) : str :=
  of_ascii (NilZero.string_of_int (Z.to_int n)).

(** The longest run of digits a string starts with. *)
Fixpoint take_digits (s : str) : str :=
  match s with
  | Empty => Empty
  | Char c r => if is_digit c then Char c (take_digits r) else Empty
  end.

(** [s[n:]]. *)
Fixpoint drop (n : nat) (s : str) : str :=
  match n, s with
  | O, _ => s
  | S _, Empty => Empty
  | S n', Char _ r => drop n' r
  end.

(** [re.search(lit + r"(\d+)", s)]: group 1 of the leftmost match of the
    literal [lit] followed by one digit or more, the digits taken
    greedily; [None] when there is no match. *)
Fixpoint re_search_digits_after (lit s : str) : option str :=
  let here :=
    if startswith lit s then take_digits (drop (str_length lit) s)
    else Empty in
  match here with
  | Char _ _ => Some here
  | Empty =>
      match s with
      | Empty => None
      | Char _ r => re_search_digits_after lit r
      end
  end.

End PyStr.

Export PyStr.
(** ** clone_utils.py *)

Module CloneUtils.
Import PyStr.

(** A [pathlib.Path], by the text [str()] gives for it. *)
Definition Path := str.

Definition str_of_path (p : Path) : str := p.

(** Modelled from the spec: class [Config] of [gerrit_clone.models] is not
    among the sources; of its fields the clone command builder reads
    the mirror flag, the depth and the branch ("mirror flag (default
    true), depth, branch"), the last two being optional. *)
Record Config := mkConfig {
  mirror : bool;
  depth : option Z;
  branch : option str
}.

(** [cmd.extend(items)] and [cmd.append(item)] on a list of strings, as
    the new value of [cmd]. *)
Definition extend (cmd items : list str) : list str :=
  (cmd ++ items)%list.

Definition append (cmd : list str) (item : str) : list str :=
  (cmd ++ [item])%list.

(** [build_base_clone_command]: the list [cmd] is threaded through the
    updates of the source. *)
Definition build_base_clone_command
    (clone_url : str) (target_path : Path) (config : Config)
    : list str :=
  let cmd := ["git"; "clone"] in
  let cmd := extend cmd ["--no-hardlinks"; "--quiet"] in
  let cmd :=
    if mirror config then append cmd "--mirror"
    else
      let cmd :=
        match depth config with
        | Some d => extend cmd ["--depth"; str_of_int d]
        | None => cmd
        end in
      let cmd :=
        match branch config with
        | Some b => extend cmd ["--branch"; b]
        | None => cmd
        end in
      cmd in
  let cmd := append cmd clone_url in
  let cmd := append cmd (str_of_path target_path) in
  cmd.

Definition retryable_patterns : list str :=
  [ "connection timeout";
    "connection timed out";
    "connect to host";
    "connection refused";
    "connection reset";
    "broken pipe";
    "network is unreachable";
    "temporary failure in name resolution";
    "could not resolve hostname";
    "name or service not known";
    "early eof";
    "the remote end hung up unexpectedly";
    "transfer closed";
    "rpc failed";
    "fetch-pack: unable to spawn";
    "service temporarily unavailable";
    "502 bad gateway";
    "503 service unavailable";
    "504 gateway timeout";
    "ssh: connect to host";
    "kex_exchange_identification";
    "pack-objects died";
    "index-pack failed";
    "fatal: protocol error: bad pack header" ].

Definition non_retryable_patterns : list str :=
  [ "permission denied";
    "authentication failed";
    "access denied";
    "repository not found";
    "does not exist";
    "host key verification failed";
    "could not read from remote repository";
    "fatal: repository";
    "invalid credentials";
    "bad credentials" ].

(** The loop [for pattern in patterns: if pattern in text: return found],
    followed by [rest] when no pattern is found. *)
Fixpoint for_pattern_return {A : Type}
    (patterns : list str) (text : str) (found rest : A) : A :=
  match patterns with
  | [] => rest
  | pattern :: more =>
      if str_in pattern text then found
      else for_pattern_return more text found rest
  end.

Definition is_retryable_git_error (error_output : str) : bool :=
  if negb (truthy error_output) then false
  else
    let error_lower := lower error_output in
    for_pattern_return retryable_patterns error_lower true
      (for_pattern_return non_retryable_patterns error_lower false
         false).

(** The line feed the messages are built with. *)
Definition nl : str := Char 10 Empty.

(** [if host:] for an optional str: present and not empty. *)
Definition if_host (host : option str) (msg : str)
    (update : str -> str) : str :=
  match host with
  | Some h => if truthy h then msg ++ update h else msg
  | None => msg
  end.

Definition analyze_git_clone_error
    (error_output project_name : str) (host : option str) : str :=
  if negb (truthy error_output) then "Clone failed with no error output"
  else
    let error_lower := lower error_output in
    if str_in "permission denied" error_lower
       && str_in "publickey" error_lower then
      let msg := "SSH authentication failed for " ++ project_name ++ nl in
      let msg := msg ++ "Possible causes:" ++ nl in
      let msg := msg ++ "  • SSH key not added to ssh-agent (run: ssh-add <key-path>)" ++ nl in
      let msg := msg ++ "  • SSH key not authorized on the server" ++ nl in
      let msg := msg ++ "  • Wrong SSH user (try setting ssh_user in config)" ++ nl in
      let msg := if_host host msg (fun h => nl ++ "Test SSH access: ssh -T " ++ h) in
      msg
    else if str_in "host key verification failed" error_lower then
      let msg := "SSH host key verification failed for " ++ project_name ++ nl in
      let msg := msg ++ "Possible causes:" ++ nl in
      let msg := msg ++ "  • Host not in known_hosts file" ++ nl in
      let msg := msg ++ "  • Host key has changed (security risk!)" ++ nl in
      let msg :=
        if_host host msg (fun h =>
          (nl ++ "Add host key: ssh-keyscan " ++ h ++ " >> ~/.ssh/known_hosts" ++ nl)
          ++ "Or disable strict checking (less secure): ssh -o StrictHostKeyChecking=no " ++ h) in
      msg
    else if str_in "connection refused" error_lower then
      let port_match :=
        if str_in "port" error_lower
        then re_search_digits_after "port " error_lower
        else None in
      let msg := "Connection refused for " ++ project_name ++ nl in
      let msg := msg ++ "Possible causes:" ++ nl in
      let msg := msg ++ "  • SSH service is not running on the server" ++ nl in
      let msg :=
        match port_match with
        | Some port => msg ++ "  • Wrong port (currently using " ++ port ++ ")" ++ nl
        | None => msg
        end in
      let msg :=
        if_host host msg (fun h =>
          ("  • Firewall blocking access to " ++ h ++ nl)
          ++ nl ++ "Verify SSH port: nmap -p 22,29418 " ++ h) in
      msg
    else if str_in "could not resolve hostname" error_lower
            || str_in "name or service not known" error_lower then
      let msg := "DNS resolution failed for " ++ project_name ++ nl in
      let msg := msg ++ "Possible causes:" ++ nl in
      let msg := msg ++ "  • Hostname is incorrect" ++ nl in
      let msg := msg ++ "  • DNS server is unavailable" ++ nl in
      let msg := msg ++ "  • Network connectivity issue" ++ nl in
      let msg := if_host host msg (fun h => nl ++ "Test DNS: nslookup " ++ h) in
      msg
    else if str_in "repository not found" error_lower
            || str_in "does not exist" error_lower then
      let msg := "Repository not found: " ++ project_name ++ nl in
      let msg := msg ++ "Possible causes:" ++ nl in
      let msg := msg ++ "  • Repository name is incorrect" ++ nl in
      let msg := msg ++ "  • Repository has been deleted or moved" ++ nl in
      let msg := msg ++ "  • You don't have permission to access this repository" in
      msg
    else if str_in "timeout" error_lower
            || str_in "timed out" error_lower then
      let msg := "Connection timeout for " ++ project_name ++ nl in
      let msg := msg ++ "Possible causes:" ++ nl in
      let msg := msg ++ "  • Network is slow or unstable" ++ nl in
      let msg := msg ++ "  • Server is overloaded" ++ nl in
      let msg := msg ++ "  • Repository is very large" ++ nl in
      let msg := msg ++ nl ++ "Consider increasing clone_timeout in config" in
      msg
    else if existsb (fun pattern => str_in pattern error_lower)
              ["network"; "connection"; "eof"; "hung up"] then
      "Network error cloning " ++ project_name ++ ": " ++ strip error_output
    else strip error_output.

Definition inspection_patterns : list str :=
  [ "permission denied";
    "authentication failed";
    "access denied";
    "host key verification failed" ].

Definition should_cleanup_on_clone_error (error_output : str) : bool :=
  if negb (truthy error_output) then true
  else
    let error_lower := lower error_output in
    forallb (fun pattern => negb (str_in pattern error_lower))
      inspection_patterns.

End CloneUtils.

(** ** git_utils.py *)

Module GitUtils.
Import PyStr.

(** A [pathlib.Path], by the text [str()] gives for it. *)
Definition Path := str.

Definition str_of_path (p : Path) : str := p.

(** [p / name] for a one-component relative [name]: a path never ends
    with a separator unless it is a root, and the current directory [.]
    is dropped. *)
Definition joinpath (p : Path) (name : str) : Path :=
  if str_eqb p "." then name
  else if str_eqb (drop (str_length p - 1) p) "/" then p ++ name
  else p ++ "/" ++ name.

(** The exceptions of the module: the two it raises itself, the two
    [subprocess.run] documents, and any other subclass of [Exception], by
    its class name: what the run of a child process may raise ([OSError]
    when the executable is missing, a decoding error, ...) and what the
    file system tests raise ([PermissionError] on a directory that cannot
    be searched, [OSError] on a name that is too long, ...). *)
Inductive exn : Type :=
| FileNotFoundError (msg : str)
| ValueError (msg : str)
| CalledProcessError (returncode : Z)
| TimeoutExpired
| OtherException (class_name : str).

(** The result of a call: the value returned or the exception raised. *)
Inductive result (A : Type) : Type :=
| Return (a : A)
| Raise (e : exn).
Arguments Return {A} a.
Arguments Raise {A} e.

Definition bind {A B : Type} (r : result A) (k : A -> result B) : result B :=
  match r with
  | Return a => k a
  | Raise e => Raise e
  end.

Notation "x <- c1 ;; c2" := (bind c1 (fun x => c2))
  (at level 61, c1 at next level, right associativity).

(** [try: body  except ...: handler]. *)
Definition try_except {A : Type} (body : result A)
    (handler : exn -> result A) : result A :=
  match body with
  | Return a => Return a
  | Raise e => handler e
  end.

(** [all(test(x) for x in items)]: the tests are made in order, up to the
    first that fails or raises. *)
Fixpoint all_of {A : Type} (test : A -> result bool) (items : list A)
    : result bool :=
  match items with
  | [] => Return true
  | x :: rest =>
      ok <- test x ;;
      if ok then all_of test rest else Return false
  end.

(** [subprocess.CompletedProcess], with the fields the module reads. *)
Record CompletedProcess := mkCompleted {
  returncode : Z;
  stdout : str
}.

(** What the functions observe of the machine, which does not change
    during a call: the file system, through [Path.exists] and
    [Path.is_dir], which answer or raise the [OSError] of [stat] (any but
    the ones that say the path is not there: those make the answer
    [False]); and the run of a child process with captured text output
    under a timeout in seconds, which either completes or raises
    ([TimeoutExpired], or an [OSError] when it cannot be started). *)
Record World := mkWorld {
  path_exists : Path -> result bool;
  path_is_dir : Path -> result bool;
  spawn : list str -> Z -> result CompletedProcess
}.

(** [subprocess.run(args, capture_output=True, text=True, check=...,
    timeout=...)]: with [check] a non-zero return code raises
    [CalledProcessError]. *)
Definition subprocess_run (w : World) (args : list str)
    (check : bool) (timeout : Z) : result CompletedProcess :=
  p <- spawn w args timeout ;;
  if check && negb (returncode p =? 0)%Z
  then Raise (CalledProcessError (returncode p))
  else Return p.

Definition is_git_repository (w : World) (repo_path : Path) : result bool :=
  present <- path_exists w repo_path ;;
  if negb present then Return false
  else
    is_dir <- path_is_dir w repo_path ;;
    if negb is_dir then Return false
    else
      let git_dir := joinpath repo_path ".git" in
      git_dir_present <- path_exists w git_dir ;;
      if git_dir_present then Return true
      else
        let bare_markers := ["HEAD"; "objects"; "refs"; "config"] in
        has_markers <-
          all_of (fun marker => path_exists w (joinpath repo_path marker))
            bare_markers ;;
        if has_markers then Return true
        else
          try_except
            (result <-
               subprocess_run w
                 ["git"; "-C"; str_of_path repo_path; "rev-parse";
                  "--is-bare-repository"] false 5 ;;
             if (returncode result =? 0)%Z
                && str_eqb (strip (stdout result)) "true"
             then Return true
             else Return false)
            (fun _ => Return false).

(** [x if x else None] for a string. *)
Definition or_none (x : str) : option str :=
  if truthy x then Some x else None.

Definition get_current_commit_sha (w : World) (repo_path : Path)
    : result (option str) :=
  present <- path_exists w repo_path ;;
  if negb present then
    Raise (FileNotFoundError
             ("Repository path does not exist: " ++ str_of_path repo_path))
  else
    is_repo <- is_git_repository w repo_path ;;
    if negb is_repo then
      Raise (ValueError ("Not a git repository: " ++ str_of_path repo_path))
    else
      try_except
        (result <-
           subprocess_run w
             ["git"; "-C"; str_of_path repo_path; "rev-parse"; "HEAD"]
             true 5 ;;
         let sha := strip (stdout result) in
         Return (or_none sha))
        (fun e =>
           match e with
           | CalledProcessError _ => Return None
           | TimeoutExpired => Return None
           | _ => Return None
           end).

Definition get_current_branch (w : World) (repo_path : Path)
    : result (option str) :=
  present <- path_exists w repo_path ;;
  if negb present then
    Raise (FileNotFoundError
             ("Repository path does not exist: " ++ str_of_path repo_path))
  else
    is_repo <- is_git_repository w repo_path ;;
    if negb is_repo then
      Raise (ValueError ("Not a git repository: " ++ str_of_path repo_path))
    else
      try_except
        (result <-
           subprocess_run w
             ["git"; "-C"; str_of_path repo_path; "symbolic-ref";
              "--short"; "HEAD"]
             true 5 ;;
         let branch := strip (stdout result) in
         Return (or_none branch))
        (fun e =>
           match e with
           | CalledProcessError _ => Return None
           | TimeoutExpired => Return None
           | _ => Return None
           end).

Definition is_repo_dirty (w : World) (repo_path : Path) : result bool :=
  present <- path_exists w repo_path ;;
  if negb present then
    Raise (FileNotFoundError
             ("Repository path does not exist: " ++ str_of_path repo_path))
  else
    is_repo <- is_git_repository w repo_path ;;
    if negb is_repo then
      Raise (ValueError ("Not a git repository: " ++ str_of_path repo_path))
    else
      try_except
        (result <-
           subprocess_run w
             ["git"; "-C"; str_of_path repo_path; "status"; "--porcelain"]
             true 5 ;;
         Return (truthy (strip (stdout result))))
        (fun e =>
           match e with
           | CalledProcessError _ => Return false
           | TimeoutExpired => Return false
           | _ => Return false
           end).

Definition get_remote_url (w : World) (repo_path : Path) (remote : str)
    : result (option str) :=
  present <- path_exists w repo_path ;;
  if negb present then
    Raise (FileNotFoundError
             ("Repository path does not exist: " ++ str_of_path repo_path))
  else
    is_repo <- is_git_repository w repo_path ;;
    if negb is_repo then
      Raise (ValueError ("Not a git repository: " ++ str_of_path repo_path))
    else
      try_except
        (result <-
           subprocess_run w
             ["git"; "-C"; str_of_path repo_path; "remote"; "get-url";
              remote]
             true 5 ;;
         let url := strip (stdout result) in
         Return (or_none url))
        (fun e =>
           match e with
           | CalledProcessError _ => Return None
           | TimeoutExpired => Return None
           | _ => Return None
           end).

End GitUtils.

(** ** Vocabulary of the stated properties *)

Module Props.
Import PyStr CloneUtils.

(** [p] occurs in [t]: [t] is some text, then [p], then some text. *)
Definition Occurs (p t : str) : Prop :=
  exists before after : str, t = before ++ p ++ after.

(** An error text matches a pattern when the pattern occurs in the text
    once letter case is put aside, that is in its lower-case form. *)
Definition Matches (pattern error_output : str) : Prop :=
  Occurs pattern (lower error_output).

Definition MatchesAny (patterns : list str) (error_output : str)
    : Prop :=
  exists pattern, In pattern patterns /\ Matches pattern error_output.

(** The decision procedure for [MatchesAny]. *)
Definition matches_anyb (patterns : list str) (error_output : str)
    : bool :=
  existsb (fun pattern => str_in pattern (lower error_output)) patterns.

(** The transient (network, transport, server) patterns are the ones the
    classifier retries on. *)
Definition transient_patterns : list str := retryable_patterns.

(** The authorization, credential and host-key patterns among the ones
    the classifier lists as not retryable. *)
Definition authorization_patterns : list str :=
  [ "permission denied";
    "authentication failed";
    "access denied";
    "host key verification failed";
    "invalid credentials";
    "bad credentials" ].

(** The patterns that say the repository is not there. *)
Definition existence_patterns : list str :=
  [ "repository not found"; "does not exist" ].

(** An ASCII letter in the other case; any other character as it is. *)
Definition ascii_swapcase (c : N) : N :=
  if ((65 <=? c) && (c <=? 90))%N then (c + 32)%N
  else if ((97 <=? c) && (c <=? 122))%N then (c - 32)%N
  else c.

(** Two characters that are the same up to the case of an ASCII letter. *)
Definition same_letter (c d : N) : Prop :=
  d = c \/ d = ascii_swapcase c.

(** Two texts that differ only in the case of their ASCII letters. *)
Inductive CaseVariant : str -> str -> Prop :=
| CaseVariant_empty : CaseVariant Empty Empty
| CaseVariant_char (c d : N) (s t : str) :
    same_letter c d -> CaseVariant s t ->
    CaseVariant (Char c s) (Char d t).

(** The lower-case form when every capital sigma becomes the small one:
    the lower-case form of a text but for the choice between the two small
    sigmas. *)
Fixpoint lower_flat (s : str) : str :=
  match s with
  | Empty => Empty
  | Char c r => tolower c ++ lower_flat r
  end.

(** Two texts with the same ASCII characters at the same places, and
    characters outside ASCII everywhere else. *)
Inductive AsciiAgree : str -> str -> Prop :=
| AsciiAgree_empty : AsciiAgree Empty Empty
| AsciiAgree_char (c d : N) (s t : str) :
    c = d \/ ((128 <= c)%N /\ (128 <= d)%N) -> AsciiAgree s t ->
    AsciiAgree (Char c s) (Char d t).

(** Every character of a text is an ASCII character. *)
Fixpoint is_ascii (s : str) : bool :=
  match s with
  | Empty => true
  | Char c r => (c <? 128)%N && is_ascii r
  end.

(** Every character of a text is white space. *)
Fixpoint all_space (s : str) : bool :=
  match s with
  | Empty => true
  | Char c r => is_space c && all_space r
  end.

(** The last character of a text, if any. *)
Fixpoint last_char (s : str) : option N :=
  match s with
  | Empty => None
  | Char c Empty => Some c
  | Char _ r => last_char r
  end.

(** The first character of a text, if any. *)
Definition first_char (s : str) : option N :=
  match s with
  | Empty => None
  | Char c _ => Some c
  end.

(** An error text none of the diagnostic categories of
    [analyze_git_clone_error] applies to. *)
Definition Uncategorised (error_output : str) : Prop :=
  ~ (Matches "permission denied" error_output
     /\ Matches "publickey" error_output)
  /\ ~ Matches "host key verification failed" error_output
  /\ ~ Matches "connection refused" error_output
  /\ ~ (Matches "could not resolve hostname" error_output
        \/ Matches "name or service not known" error_output)
  /\ ~ (Matches "repository not found" error_output
        \/ Matches "does not exist" error_output)
  /\ ~ (Matches "timeout" error_output \/ Matches "timed out" error_output)
  /\ ~ MatchesAny ["network"; "connection"; "eof"; "hung up"] error_output.

End Props.

(** ** Vocabulary of the error contract of the repository queries *)

Module GitProps.
Import PyStr GitUtils.

(** The run of a command fails: the child process cannot be started,
    times out or raises otherwise, or it ends with a non-zero code. *)
Definition run_fails (w : World) (args : list str) : Prop :=
  match spawn w args 5 with
  | Raise _ => True
  | Return p => returncode p <> 0%Z
  end.

(** The error contract of a query [op] that runs [command] and has
    [benign] for its answer on failure: a path found missing raises
    [FileNotFoundError]; a path found to exist and found to be no git
    repository raises [ValueError]; on a path found to be a repository
    the query returns, and returns [benign] whenever the run of its
    command fails; and what a test of the file system raises, the query
    raises. *)
Definition ErrorContract {A : Type}
    (op : World -> Path -> result A)
    (command : Path -> list str) (benign : A) : Prop :=
  forall (w : World) (repo_path : Path),
    (path_exists w repo_path = Return false ->
       exists msg, op w repo_path = Raise (FileNotFoundError msg))
    /\ (path_exists w repo_path = Return true ->
        is_git_repository w repo_path = Return false ->
        exists msg, op w repo_path = Raise (ValueError msg))
    /\ (path_exists w repo_path = Return true ->
        is_git_repository w repo_path = Return true ->
        exists v, op w repo_path = Return v
                  /\ (run_fails w (command repo_path) -> v = benign))
    /\ (forall e, path_exists w repo_path = Raise e ->
        op w repo_path = Raise e)
    /\ (forall e, path_exists w repo_path = Return true ->
        is_git_repository w repo_path = Raise e ->
        op w repo_path = Raise e).

(** Machines to run the queries on.  On the first nothing exists. *)
Definition empty_world : World :=
  mkWorld (fun _ => Return false) (fun _ => Return false)
    (fun _ _ => Raise (OtherException "FileNotFoundError")).

(** On the second [/tmp/work] is a directory without git data, and git
    says so. *)
Definition plain_directory_world : World :=
  mkWorld (fun p => Return (str_eqb p "/tmp/work"))
    (fun p => Return (str_eqb p "/tmp/work"))
    (fun _ _ => Return (mkCompleted 128 "")).

(** On the third [/tmp/repo] is a clone with a [.git] directory and every
    git command times out. *)
Definition stuck_repository_world : World :=
  mkWorld
    (fun p => Return (str_eqb p "/tmp/repo" || str_eqb p "/tmp/repo/.git"))
    (fun p => Return (str_eqb p "/tmp/repo" || str_eqb p "/tmp/repo/.git"))
    (fun _ _ => Raise TimeoutExpired).

(** On the fourth [/srv/locked] is a directory the user may not search:
    it is there, and asking for anything under it is refused. *)
Definition unsearchable_directory_world : World :=
  mkWorld
    (fun p =>
       if str_eqb p "/srv/locked" then Return true
       else if startswith "/srv/locked/" p
            then Raise (OtherException "PermissionError")
            else Return false)
    (fun p =>
       if str_eqb p "/srv/locked" then Return true
       else if startswith "/srv/locked/" p
            then Raise (OtherException "PermissionError")
            else Return false)
    (fun _ _ => Return (mkCompleted 128 "")).

End GitProps.

(** ** Further vocabulary: white space, digits, file-system views *)

Module MoreProps.
Import PyStr CloneUtils GitUtils Props.

(** A pattern that neither starts nor ends with white space (and is not
    empty). *)
Definition solid_ends (p : str) : bool :=
  match first_char p, last_char p with
  | Some a, Some b => negb (is_space a) && negb (is_space b)
  | _, _ => false
  end.

(** Every character of a text is a digit. *)
Fixpoint all_digits (s : str) : bool :=
  match s with
  | Empty => true
  | Char c r => is_digit c && all_digits r
  end.

(** A text starts with a digit. *)
Definition starts_with_digit (s : str) : bool :=
  match s with
  | Empty => false
  | Char c _ => is_digit c
  end.

(** The four entries of a bare repository, under a path. *)
Definition bare_marker_paths (repo_path : Path) : list Path :=
  map (joinpath repo_path) ["HEAD"; "objects"; "refs"; "config"].

(** What the disk alone says of a path: a directory with a [.git] entry,
    or with the four entries of a bare repository; the tests are made in
    the order of the function and the first that raises ends them. *)
Definition on_disk_repository (w : World) (repo_path : Path) : result bool :=
  present <- path_exists w repo_path ;;
  if negb present then Return false
  else
    is_dir <- path_is_dir w repo_path ;;
    if negb is_dir then Return false
    else
      git_dir_present <- path_exists w (joinpath repo_path ".git") ;;
      if git_dir_present then Return true
      else all_of (path_exists w) (bare_marker_paths repo_path).

(** The four entries of a bare repository are found to be there. *)
Definition MarkersPresent (w : World) (repo_path : Path) : Prop :=
  forall marker, In marker (bare_marker_paths repo_path) ->
                 path_exists w marker = Return true.

(** One of the four entries is found missing, those before it having
    been found. *)
Definition MarkerMissing (w : World) (repo_path : Path) : Prop :=
  exists found missing rest,
    bare_marker_paths repo_path = (found ++ missing :: rest)%list
    /\ (forall marker, In marker found -> path_exists w marker = Return true)
    /\ path_exists w missing = Return false.

(** The run of a command completes with exit code 0 and prints [out]. *)
Definition run_prints (w : World) (args : list str) (out : str) : Prop :=
  spawn w args 5 = Return (mkCompleted 0 out).

(** The command git is asked to tell whether a path is a bare
    repository. *)
Definition bare_probe (repo_path : Path) : list str :=
  ["git"; "-C"; str_of_path repo_path; "rev-parse"; "--is-bare-repository"].

(** Git answers the bare-repository probe with "true". *)
Definition git_says_bare (w : World) (repo_path : Path) : Prop :=
  exists out, run_prints w (bare_probe repo_path) out /\ strip out = "true".

(** The answer of git to the bare-repository probe, as the function reads
    it. *)
Definition probe_accepts (w : World) (repo_path : Path) : bool :=
  match spawn w (bare_probe repo_path) 5 with
  | Return c => (returncode c =? 0)%Z && str_eqb (strip (stdout c)) "true"
  | Raise _ => false
  end.

(** The digits matched at the very start of a text, if the literal and a
    digit are there. *)
Definition match_here (lit s : str) : str :=
  if startswith lit s then take_digits (drop (str_length lit) s)
  else Empty.

(** A query [op] that runs [command] answers with a text exactly when,
    on a repository, the command completes with exit code 0 and prints
    something other than white space; the answer is what it prints,
    stripped. *)
Definition StrippedAnswer
    (op : World -> Path -> result (option str))
    (command : Path -> list str) : Prop :=
  forall (w : World) (repo_path : Path) (answer : str),
    op w repo_path = Return (Some answer)
    <-> (path_exists w repo_path = Return true
         /\ is_git_repository w repo_path = Return true
         /\ exists out,
              run_prints w (command repo_path) out
              /\ strip out = answer /\ answer <> "").

(** A machine with a [.git] entry under [/tmp/repo] on which git prints
    a commit id followed by a line feed. *)
Definition working_repository_world : World :=
  mkWorld
    (fun p => Return (str_eqb p "/tmp/repo" || str_eqb p "/tmp/repo/.git"))
    (fun p => Return (str_eqb p "/tmp/repo" || str_eqb p "/tmp/repo/.git"))
    (fun _ _ => Return (mkCompleted 0
       ("3f786850e387550fdab836ed7e6dc881de23001b" ++ nl))).

End MoreProps.

(** ** Properties of the string primitives *)

Module PyStrFacts.
Import PyStr Props.

Lemma str_app_assoc (x y z : str) : (x ++ y) ++ z = x ++ y ++ z.
Proof. induction x as [|c x IH]; simpl; [reflexivity | now rewrite IH]. Qed.

Lemma str_app_nil_r (x : str) : x ++ "" = x.
Proof. induction x as [|c x IH]; simpl; [reflexivity | now rewrite IH]. Qed.

Lemma str_eqb_eq (x y : str) : str_eqb x y = true <-> x = y.
Proof.
  revert y. induction x as [|a x IH]; intros [|b y]; simpl;
    try (split; [discriminate | discriminate]); [tauto|].
  rewrite andb_true_iff, N.eqb_eq, IH.
  split; [intros [-> ->]; reflexivity | intros [= -> ->]; auto].
Qed.

Lemma str_eqb_refl (x : str) : str_eqb x x = true.
Proof. now apply str_eqb_eq. Qed.

Lemma startswith_app (p t : str) : startswith p (p ++ t) = true.
Proof.
  induction p as [|a p IH]; simpl.
  - destruct t; reflexivity.
  - now rewrite N.eqb_refl.
Qed.

Lemma startswith_inv (p : str) :
  forall s, startswith p s = true -> exists t, s = p ++ t.
Proof.
  induction p as [|a p IH]; intros s H.
  - now exists s.
  - destruct s as [|b s]; simpl in H; [discriminate|].
    apply andb_true_iff in H as [Hab Hps].
    apply N.eqb_eq in Hab. subst b.
    destruct (IH _ Hps) as [t ->]. now exists t.
Qed.

Lemma str_in_unfold (p s : str) :
  str_in p s =
  startswith p s
  || match s with Empty => false | Char _ r => str_in p r end.
Proof. destruct s; reflexivity. Qed.

(** The [in] operator decides occurrence. *)
Lemma str_in_spec (p s : str) : str_in p s = true <-> Occurs p s.
Proof.
  split.
  - induction s as [|a s IH]; rewrite str_in_unfold; intros H;
      apply orb_true_iff in H as [H|H]; try discriminate.
    + destruct (startswith_inv _ _ H) as [t Ht].
      now exists Empty, t.
    + destruct (startswith_inv _ _ H) as [t Ht].
      now exists Empty, t.
    + destruct (IH H) as (before & after & ->).
      now exists (Char a before), after.
  - intros (before & after & ->).
    induction before as [|a before IH]; rewrite str_in_unfold.
    + simpl. now rewrite startswith_app.
    + simpl. rewrite IH. apply orb_true_r.
Qed.

(** A test that holds of each number of a range, found by running it. *)
Lemma range_forall (test : N -> bool) (first : N) (count : nat) :
  forallb test (map N.of_nat (seq (N.to_nat first) count)) = true ->
  forall c, (first <= c)%N -> (c < first + N.of_nat count)%N -> test c = true.
Proof.
  intros H c Hlo Hhi. rewrite forallb_forall in H. apply H.
  rewrite <- (N2Nat.id c). apply in_map. apply in_seq. lia.
Qed.

Lemma AsciiAgree_refl (s : str) : AsciiAgree s s.
Proof. induction s; constructor; auto. Qed.

Lemma AsciiAgree_sym (s t : str) : AsciiAgree s t -> AsciiAgree t s.
Proof.
  induction 1 as [|c d s t H _ IH]; constructor; trivial.
  destruct H as [->|[H1 H2]]; auto.
Qed.

Lemma AsciiAgree_app (s s' t t' : str) :
  AsciiAgree s s' -> AsciiAgree t t' -> AsciiAgree (s ++ t) (s' ++ t').
Proof. induction 1; simpl; [trivial | constructor; auto]. Qed.

(** The lower-case form and the form with small sigmas only agree on
    ASCII: the two small sigmas are both outside it. *)
Lemma lower_from_agree (s : str) :
  forall after_cased, AsciiAgree (lower_from after_cased s) (lower_flat s).
Proof.
  induction s as [|c s IH]; intros after_cased; simpl; [constructor|].
  apply AsciiAgree_app; [|apply IH].
  destruct (c =? 931)%N eqn:E; [|apply AsciiAgree_refl].
  apply N.eqb_eq in E. subst c.
  destruct (after_cased && negb (followed_by_cased s));
    [|apply AsciiAgree_refl].
  constructor; [right; split; discriminate | constructor].
Qed.

Lemma lower_agree (s : str) : AsciiAgree (lower s) (lower_flat s).
Proof. apply lower_from_agree. Qed.

Lemma startswith_agree (p : str) :
  is_ascii p = true ->
  forall s t, AsciiAgree s t -> startswith p s = startswith p t.
Proof.
  induction p as [|a p IH]; intros Hp s t Hst; [reflexivity|].
  simpl in Hp. apply andb_true_iff in Hp as [Ha Hp].
  apply N.ltb_lt in Ha.
  destruct Hst as [|c d s t Hcd Hst]; [reflexivity|]. simpl.
  rewrite (IH Hp s t Hst). f_equal.
  destruct Hcd as [->|[Hc Hd]]; [reflexivity|].
  transitivity false; [|symmetry]; apply N.eqb_neq; lia.
Qed.

(** An ASCII pattern is found in both of two texts that agree on ASCII,
    or in neither. *)
Lemma str_in_agree (p s t : str) :
  is_ascii p = true -> AsciiAgree s t -> str_in p s = str_in p t.
Proof.
  intros Hp. induction 1 as [|c d s t Hcd Hst IH].
  - reflexivity.
  - rewrite (str_in_unfold p (Char c s)), (str_in_unfold p (Char d t)), IH.
    f_equal. apply startswith_agree; [exact Hp | now constructor].
Qed.

Lemma str_in_lower_flat (p s : str) :
  is_ascii p = true -> str_in p (lower s) = str_in p (lower_flat s).
Proof. intros Hp. apply str_in_agree; [exact Hp | apply lower_agree]. Qed.

Lemma lower_flat_app (s t : str) :
  lower_flat (s ++ t) = lower_flat s ++ lower_flat t.
Proof.
  induction s as [|c s IH]; simpl; [reflexivity|].
  now rewrite IH, str_app_assoc.
Qed.

(** An ASCII letter and the same letter in the other case have one
    lower-case form. *)
Lemma tolower_swapcase (c : N) : tolower (ascii_swapcase c) = tolower c.
Proof.
  unfold ascii_swapcase.
  destruct ((65 <=? c) && (c <=? 90))%N eqn:Hu.
  - apply andb_true_iff in Hu as [H1 H2].
    apply N.leb_le in H1, H2. apply str_eqb_eq.
    apply (range_forall
             (fun c => str_eqb (tolower (c + 32)) (tolower c)) 65 26);
      [vm_compute; reflexivity | lia | lia].
  - destruct ((97 <=? c) && (c <=? 122))%N eqn:Hl; [|reflexivity].
    apply andb_true_iff in Hl as [H1 H2].
    apply N.leb_le in H1, H2. apply str_eqb_eq.
    apply (range_forall
             (fun c => str_eqb (tolower (c - 32)) (tolower c)) 97 26);
      [vm_compute; reflexivity | lia | lia].
Qed.

Lemma same_letter_lower (c d : N) : same_letter c d -> tolower c = tolower d.
Proof.
  intros [-> | ->]; [reflexivity | now rewrite tolower_swapcase].
Qed.

(** Texts that differ in the case of ASCII letters have the same
    lower-case form, the choice of sigmas apart. *)
Lemma CaseVariant_lower_flat (s t : str) :
  CaseVariant s t -> lower_flat s = lower_flat t.
Proof.
  induction 1 as [|c d s t Hcd _ IH]; simpl; [reflexivity|].
  now rewrite (same_letter_lower _ _ Hcd), IH.
Qed.

Lemma matches_anyb_spec (ps : list str) (s : str) :
  matches_anyb ps s = true <-> MatchesAny ps s.
Proof.
  unfold matches_anyb, MatchesAny, Matches. rewrite existsb_exists.
  split; intros (p & Hin & Hp); exists p; split; trivial;
    now apply str_in_spec.
Qed.

Lemma matches_anyb_false (ps : list str) (s : str) :
  matches_anyb ps s = false <-> ~ MatchesAny ps s.
Proof.
  rewrite <- matches_anyb_spec. destruct (matches_anyb ps s); split;
    congruence.
Qed.

Lemma MatchesAny_incl (ps qs : list str) (s : str) :
  incl ps qs -> MatchesAny ps s -> MatchesAny qs s.
Proof. intros Hincl (p & Hin & Hp). exists p. split; auto. Qed.

(** For ASCII patterns the choice of sigmas has no part in matching. *)
Lemma matches_anyb_flat (ps : list str) (s : str) :
  forallb is_ascii ps = true ->
  matches_anyb ps s = existsb (fun p => str_in p (lower_flat s)) ps.
Proof.
  unfold matches_anyb. induction ps as [|p ps IH]; simpl; [reflexivity|].
  intros H. apply andb_true_iff in H as [Hp Hps].
  now rewrite (str_in_lower_flat p s Hp), IH.
Qed.

End PyStrFacts.

(** ** The transfer error classifier *)

Module Classifier.
Import PyStr CloneUtils Props PyStrFacts.

Lemma for_pattern_return_existsb {A : Type}
    (patterns : list str) (text : str) (found rest : A) :
  for_pattern_return patterns text found rest =
  if existsb (fun pattern => str_in pattern text) patterns
  then found else rest.
Proof.
  induction patterns as [|p ps IH]; simpl; [reflexivity|].
  now destruct (str_in p text).
Qed.

(** The retry judgment is: some retryable pattern matches. *)
Lemma is_retryable_git_error_eq (s : str) :
  is_retryable_git_error s = matches_anyb retryable_patterns s.
Proof.
  destruct s as [|c s]; [reflexivity|].
  unfold is_retryable_git_error, matches_anyb.
  cbn [truthy negb]. rewrite !for_pattern_return_existsb.
  destruct (existsb _ retryable_patterns); [reflexivity|].
  now destruct (existsb _ non_retryable_patterns).
Qed.

(** The clean-up judgment is: no inspection pattern matches. *)
Lemma should_cleanup_on_clone_error_eq (s : str) :
  should_cleanup_on_clone_error s = negb (matches_anyb inspection_patterns s).
Proof.
  destruct s as [|c s]; [reflexivity|].
  unfold should_cleanup_on_clone_error, matches_anyb.
  cbn [truthy negb].
  generalize (lower (Char c s)). intros t.
  induction inspection_patterns as [|p ps IH]; simpl; [reflexivity|].
  rewrite IH. now destruct (str_in p t).
Qed.

Lemma is_retryable_iff (s : str) :
  is_retryable_git_error s = true <-> MatchesAny retryable_patterns s.
Proof. rewrite is_retryable_git_error_eq. apply matches_anyb_spec. Qed.

Lemma not_retryable_iff (s : str) :
  is_retryable_git_error s = false <-> ~ MatchesAny retryable_patterns s.
Proof. rewrite is_retryable_git_error_eq. apply matches_anyb_false. Qed.

Lemma keep_directory_iff (s : str) :
  should_cleanup_on_clone_error s = false
  <-> MatchesAny inspection_patterns s.
Proof.
  rewrite should_cleanup_on_clone_error_eq, negb_false_iff.
  apply matches_anyb_spec.
Qed.

Lemma cleanup_iff (s : str) :
  should_cleanup_on_clone_error s = true
  <-> ~ MatchesAny inspection_patterns s.
Proof.
  rewrite should_cleanup_on_clone_error_eq, negb_true_iff.
  apply matches_anyb_false.
Qed.

(** The pattern sets of the stated properties, against the lists of the
    classifier. *)
Lemma inspection_incl_authorization :
  incl inspection_patterns authorization_patterns.
Proof. intros p Hp. simpl in *. intuition. Qed.

Lemma authorization_incl_non_retryable :
  incl authorization_patterns non_retryable_patterns.
Proof. intros p Hp. simpl in *. intuition. Qed.

Lemma existence_incl_non_retryable :
  incl existence_patterns non_retryable_patterns.
Proof. intros p Hp. simpl in *. intuition. Qed.

(** The patterns of the classifier are ASCII texts. *)
Lemma retryable_patterns_ascii : forallb is_ascii retryable_patterns = true.
Proof. reflexivity. Qed.

Lemma inspection_patterns_ascii : forallb is_ascii inspection_patterns = true.
Proof. reflexivity. Qed.

(** C1: the code departs from it.  The first text below matches the
    credential pattern "invalid credentials" and the transient pattern
    "connection refused": the classifier, which looks for the transient
    patterns first, answers retryable, and as "invalid credentials" is
    not among the patterns that keep the directory the clean-up judgment
    is yes.  The second matches "permission denied" and "connection timed
    out": the directory is kept, and the error is retried all the same.
    C1 asks for not retryable and no clean-up on both. *)
Lemma credential_error_with_transient_text :
  let s := "fatal: Invalid credentials; ssh: connect to host gerrit.example.org port 29418: Connection refused" in
  let t := "Permission denied (publickey). Connection timed out" in
  (MatchesAny authorization_patterns s
   /\ MatchesAny transient_patterns s
   /\ is_retryable_git_error s = true
   /\ should_cleanup_on_clone_error s = true)
  /\ (MatchesAny authorization_patterns t
      /\ MatchesAny transient_patterns t
      /\ is_retryable_git_error t = true
      /\ should_cleanup_on_clone_error t = false).
Proof.
  cbv zeta. repeat split; try reflexivity;
    apply matches_anyb_spec; reflexivity.
Qed.

(** C2, as stated, fails: "Repository not found" matches an existence
    pattern and no transient pattern, and the clean-up judgment is yes:
    the directory is removed, not preserved. *)
Lemma repository_not_found_is_cleaned_up :
  let s := "Repository not found" in
  MatchesAny existence_patterns s
  /\ ~ MatchesAny transient_patterns s
  /\ is_retryable_git_error s = false
  /\ should_cleanup_on_clone_error s = true.
Proof.
  cbv zeta. repeat split; try reflexivity.
  - apply matches_anyb_spec; reflexivity.
  - apply matches_anyb_false; reflexivity.
Qed.

(** C2, amended: an error text that matches an existence pattern
    ("repository not found", "does not exist") and no transient pattern
    is not retryable; its directory is cleaned up
    ([should_cleanup_on_clone_error] is true) unless one of the four
    inspection patterns matches as well, and kept only then. *)
Theorem existence_error_triage (s : str) :
  MatchesAny existence_patterns s ->
  ~ MatchesAny transient_patterns s ->
  is_retryable_git_error s = false
  /\ (~ MatchesAny inspection_patterns s ->
      should_cleanup_on_clone_error s = true)
  /\ (MatchesAny inspection_patterns s ->
      should_cleanup_on_clone_error s = false).
Proof.
  intros _ Hnone. repeat split.
  - now apply not_retryable_iff.
  - intros H. now apply cleanup_iff.
  - intros H. now apply keep_directory_iff.
Qed.

Lemma existence_error_triage_witness :
  let s := "fatal: repository 'test' does not exist" in
  is_retryable_git_error s = false
  /\ should_cleanup_on_clone_error s = true.
Proof.
  cbv zeta.
  destruct (existence_error_triage "fatal: repository 'test' does not exist")
    as (Hretry & Hclean & _).
  - apply matches_anyb_spec. reflexivity.
  - apply matches_anyb_false. reflexivity.
  - split; [exact Hretry|]. apply Hclean.
    apply matches_anyb_false. reflexivity.
Defined.

(** C3: an error text that matches at least one transient pattern and no
    authorization, credential or host-key pattern is retryable and its
    directory is cleaned up. *)
Theorem transient_error_triage (s : str) :
  MatchesAny transient_patterns s ->
  ~ MatchesAny authorization_patterns s ->
  is_retryable_git_error s = true
  /\ should_cleanup_on_clone_error s = true.
Proof.
  intros Htransient Hauth. split.
  - now apply is_retryable_iff.
  - apply cleanup_iff. intros H. apply Hauth.
    exact (MatchesAny_incl _ _ _ inspection_incl_authorization H).
Qed.

Lemma transient_error_triage_witness :
  let s := "error: RPC failed; HTTP 503 Service Unavailable" in
  is_retryable_git_error s = true
  /\ should_cleanup_on_clone_error s = true.
Proof.
  cbv zeta. apply transient_error_triage.
  - apply matches_anyb_spec. reflexivity.
  - apply matches_anyb_false. reflexivity.
Defined.

(** C6: an error text in which none of the retryable patterns and none
    of the non-retryable patterns occurs is not retryable. *)
Theorem unknown_error_not_retryable (s : str) :
  ~ MatchesAny retryable_patterns s ->
  ~ MatchesAny non_retryable_patterns s ->
  is_retryable_git_error s = false.
Proof. intros Hnone _. now apply not_retryable_iff. Qed.

Lemma unknown_error_not_retryable_witness :
  is_retryable_git_error "Some unknown error occurred" = false.
Proof.
  apply unknown_error_not_retryable;
    apply matches_anyb_false; reflexivity.
Defined.

(** C7: on the empty error text the clean-up judgment is yes and the
    retry judgment is no. *)
Theorem empty_error_defaults :
  should_cleanup_on_clone_error "" = true
  /\ is_retryable_git_error "" = false.
Proof. split; reflexivity. Qed.

(** C9, as stated, fails: letter case is more than ASCII.  The text with
    a dotless i is not retryable and its upper-case form, "CONNECTION
    REFUSED", is; the text with a sharp s is cleaned up and its
    upper-case form, "ACCESS DENIED", is kept. *)
Lemma upper_case_form_is_judged_otherwise :
  let s := "connectıon refused" in
  let t := "acceß denied" in
  (upper s = "CONNECTION REFUSED"
   /\ is_retryable_git_error s = false
   /\ is_retryable_git_error (upper s) = true)
  /\ (upper t = "ACCESS DENIED"
      /\ should_cleanup_on_clone_error t = true
      /\ should_cleanup_on_clone_error (upper t) = false).
Proof. cbv zeta. repeat split; reflexivity. Qed.

(** C9, amended: the two judgments do not depend on the case of ASCII
    letters: they agree on any two error texts that differ only in the
    case of their ASCII letters, and more generally on any two texts with
    the same lower-case form. *)
Theorem triage_case_insensitive (s s' : str) :
  CaseVariant s s' \/ lower s = lower s' ->
  is_retryable_git_error s = is_retryable_git_error s'
  /\ should_cleanup_on_clone_error s = should_cleanup_on_clone_error s'.
Proof.
  intros H.
  rewrite !is_retryable_git_error_eq, !should_cleanup_on_clone_error_eq.
  destruct H as [H|H].
  - rewrite !(matches_anyb_flat _ _ retryable_patterns_ascii),
      !(matches_anyb_flat _ _ inspection_patterns_ascii).
    now rewrite (CaseVariant_lower_flat _ _ H).
  - unfold matches_anyb. now rewrite H.
Qed.

Lemma triage_case_insensitive_witness :
  is_retryable_git_error "early EOF" = is_retryable_git_error "Early eof"
  /\ should_cleanup_on_clone_error "early EOF"
     = should_cleanup_on_clone_error "Early eof".
Proof.
  apply triage_case_insensitive. left.
  repeat (constructor; [first [left; reflexivity | right; reflexivity]|]).
  constructor.
Defined.

End Classifier.

(** ** The clone command *)

Module CloneCommand.
Import PyStr CloneUtils.

(** The command in mirror mode. *)
Lemma build_mirror (clone_url : str) (target_path : Path) (config : Config) :
  mirror config = true ->
  build_base_clone_command clone_url target_path config =
  ["git"; "clone"; "--no-hardlinks"; "--quiet"; "--mirror";
   clone_url; str_of_path target_path].
Proof.
  intros Hm. unfold build_base_clone_command. now rewrite Hm.
Qed.

(** The command outside mirror mode. *)
Lemma build_plain (clone_url : str) (target_path : Path) (config : Config) :
  mirror config = false ->
  build_base_clone_command clone_url target_path config =
  (["git"; "clone"; "--no-hardlinks"; "--quiet"]
   ++ match depth config with
      | Some d => ["--depth"; str_of_int d]
      | None => []
      end
   ++ match branch config with
      | Some b => ["--branch"; b]
      | None => []
      end
   ++ [clone_url; str_of_path target_path])%list.
Proof.
  intros Hm. unfold build_base_clone_command. rewrite Hm.
  now destruct (depth config), (branch config).
Qed.

(** C4, as stated, fails: the clone URL and the destination are words of
    the command too, and a destination named like the flag puts that
    text in a mirror command. *)
Lemma mirror_command_with_flag_named_target :
  let config := mkConfig true (Some 5%Z) None in
  let cmd := build_base_clone_command
               "ssh://gerrit.example.org:29418/--depth" "--depth" config in
  mirror config = true /\ In "--mirror" cmd /\ In "--depth" cmd.
Proof. cbv zeta. simpl. intuition. Qed.

(** C4, amended: for every config with mirror set, whatever its depth
    and branch, the command is [git clone --no-hardlinks --quiet
    --mirror] followed by the clone URL and the destination: it contains
    "--mirror", and "--depth" or "--branch" is a word of it only where
    the clone URL or the destination is that very text. *)
Theorem mirror_command (clone_url : str) (target_path : Path)
    (config : Config) :
  mirror config = true ->
  let cmd := build_base_clone_command clone_url target_path config in
  cmd = ["git"; "clone"; "--no-hardlinks"; "--quiet"; "--mirror";
         clone_url; str_of_path target_path]
  /\ In "--mirror" cmd
  /\ (forall flag, flag = "--depth" \/ flag = "--branch" ->
      In flag cmd -> flag = clone_url \/ flag = str_of_path target_path).
Proof.
  intros Hm cmd. subst cmd. rewrite (build_mirror _ _ _ Hm).
  split; [reflexivity|]. split; [simpl; tauto|].
  intros flag Hflag Hin. simpl in Hin.
  destruct Hin as [H|[H|[H|[H|[H|[H|[H|[]]]]]]]];
    try (destruct Hflag; subst flag; discriminate);
    [left | right]; now symmetry.
Qed.

Lemma mirror_command_witness :
  let cmd := build_base_clone_command
               "ssh://gerrit.example.org:29418/project" "/tmp/repos/project"
               (mkConfig true (Some 5%Z) (Some "main")) in
  In "--mirror" cmd /\ ~ In "--depth" cmd /\ ~ In "--branch" cmd.
Proof.
  destruct (mirror_command "ssh://gerrit.example.org:29418/project"
              "/tmp/repos/project" (mkConfig true (Some 5%Z) (Some "main"))
              eq_refl) as (_ & Hmirror & Hflags).
  cbv zeta. split; [exact Hmirror|].
  split; intros Hin.
  - destruct (Hflags "--depth" (or_introl eq_refl) Hin); discriminate.
  - destruct (Hflags "--branch" (or_intror eq_refl) Hin); discriminate.
Defined.

(** C5, as stated, fails on the count: the words every command starts
    with are four, not five.  With and without mirror mode the first
    four words agree and the fifth differs ("--mirror" in one, the clone
    URL in the other). *)
Lemma fifth_word_is_not_fixed :
  let url := "ssh://gerrit.example.org:29418/project" in
  let target := "/tmp/repos/project" in
  let mirrored := build_base_clone_command url target (mkConfig true None None) in
  let plain := build_base_clone_command url target (mkConfig false None None) in
  firstn 4 mirrored = firstn 4 plain
  /\ nth_error mirrored 4 = Some "--mirror"
  /\ nth_error plain 4 = Some url
  /\ firstn 5 mirrored <> firstn 5 plain.
Proof. cbv zeta. repeat split. simpl. discriminate. Qed.

(** C5, amended: for every clone URL, destination and config, the
    command starts with the four words "git", "clone", "--no-hardlinks",
    "--quiet" in that order and its last two words are the clone URL and
    then the text of the destination; outside mirror mode the words in
    between are the pair "--depth" n exactly when a depth is configured,
    followed by the pair "--branch" name exactly when a branch is
    configured, and nothing else. *)
Theorem clone_command_shape (clone_url : str) (target_path : Path)
    (config : Config) :
  let cmd := build_base_clone_command clone_url target_path config in
  firstn 4 cmd = ["git"; "clone"; "--no-hardlinks"; "--quiet"]
  /\ skipn (List.length cmd - 2) cmd = [clone_url; str_of_path target_path]
  /\ (mirror config = false ->
      cmd =
      (["git"; "clone"; "--no-hardlinks"; "--quiet"]
       ++ match depth config with
          | Some d => ["--depth"; str_of_int d]
          | None => []
          end
       ++ match branch config with
          | Some b => ["--branch"; b]
          | None => []
          end
       ++ [clone_url; str_of_path target_path])%list).
Proof.
  intros cmd. subst cmd. destruct (mirror config) eqn:Hm.
  - rewrite (build_mirror _ _ _ Hm). repeat split. discriminate.
  - rewrite (build_plain _ _ _ Hm).
    destruct (depth config), (branch config); repeat split.
Qed.

Lemma clone_command_shape_witness :
  build_base_clone_command "https://github.com/org/repo.git" "/tmp/repos/repo"
    (mkConfig false (Some 5%Z) (Some "feature/test"))
  = ["git"; "clone"; "--no-hardlinks"; "--quiet"; "--depth"; "5";
     "--branch"; "feature/test";
     "https://github.com/org/repo.git"; "/tmp/repos/repo"].
Proof.
  exact (proj2 (proj2 (clone_command_shape "https://github.com/org/repo.git"
                         "/tmp/repos/repo"
                         (mkConfig false (Some 5%Z) (Some "feature/test"))))
           eq_refl).
Defined.

End CloneCommand.

(** ** The diagnostic message *)

Module Diagnostics.
Import PyStr CloneUtils Props PyStrFacts.

Lemma lstrip_spec (s : str) :
  exists lead, s = lead ++ lstrip s /\ all_space lead = true.
Proof.
  induction s as [|c s (lead & Hs & Hlead)]; simpl.
  - now exists Empty.
  - destruct (is_space c) eqn:Hc.
    + exists (Char c lead). simpl. rewrite Hc, Hlead. now rewrite <- Hs.
    + now exists Empty.
Qed.

Lemma lstrip_first (s : str) (c : N) :
  first_char (lstrip s) = Some c -> is_space c = false.
Proof.
  induction s as [|a s IH]; simpl; [discriminate|].
  destruct (is_space a) eqn:Ha; [exact IH|].
  simpl. now intros [= <-].
Qed.

Lemma rstrip_spec (s : str) :
  exists trail, s = rstrip s ++ trail /\ all_space trail = true.
Proof.
  induction s as [|c s (trail & Hs & Htrail)]; simpl.
  - now exists Empty.
  - destruct (rstrip s) as [|d r] eqn:Hr.
    + simpl in Hs. subst trail.
      destruct (is_space c) eqn:Hc.
      * exists (Char c s). simpl. now rewrite Hc, Htrail.
      * now exists s.
    + exists trail. simpl. now rewrite Hs at 1.
Qed.

Lemma rstrip_last (s : str) (c : N) :
  last_char (rstrip s) = Some c -> is_space c = false.
Proof.
  induction s as [|a s IH]; simpl; [discriminate|].
  destruct (rstrip s) as [|d r] eqn:Hr.
  - destruct (is_space a) eqn:Ha; simpl; [discriminate|].
    now intros [= <-].
  - exact IH.
Qed.

Lemma rstrip_first (s : str) (c : N) :
  first_char (rstrip s) = Some c -> first_char s = Some c.
Proof.
  destruct s as [|a s]; simpl; [discriminate|].
  destruct (rstrip s); [destruct (is_space a)|]; simpl;
    discriminate || trivial.
Qed.

(** What [strip] returns: the text between a leading and a trailing run
    of white space, itself neither starting nor ending with white
    space. *)
Lemma strip_spec (s : str) :
  (exists lead trail,
      s = lead ++ strip s ++ trail
      /\ all_space lead = true /\ all_space trail = true)
  /\ (forall c, first_char (strip s) = Some c -> is_space c = false)
  /\ (forall c, last_char (strip s) = Some c -> is_space c = false).
Proof.
  unfold strip. split; [|split].
  - destruct (lstrip_spec s) as (lead & Hs & Hlead).
    destruct (rstrip_spec (lstrip s)) as (trail & Ht & Htrail).
    exists lead, trail. rewrite <- Ht. auto.
  - intros c Hc. apply (lstrip_first s). now apply rstrip_first.
  - intros c. apply rstrip_last.
Qed.

(** The function on a text whose tests all fail. *)
Lemma analyze_no_test_passes (s project_name : str) (host : option str) :
  truthy s = true ->
  str_in "permission denied" (lower s) && str_in "publickey" (lower s) = false ->
  str_in "host key verification failed" (lower s) = false ->
  str_in "connection refused" (lower s) = false ->
  str_in "could not resolve hostname" (lower s)
    || str_in "name or service not known" (lower s) = false ->
  str_in "repository not found" (lower s)
    || str_in "does not exist" (lower s) = false ->
  str_in "timeout" (lower s) || str_in "timed out" (lower s) = false ->
  existsb (fun pattern => str_in pattern (lower s))
    ["network"; "connection"; "eof"; "hung up"] = false ->
  analyze_git_clone_error s project_name host = strip s.
Proof.
  intros Hs H1 H2 H3 H4 H5 H6 H7. unfold analyze_git_clone_error.
  now rewrite Hs, H1, H2, H3, H4, H5, H6, H7.
Qed.

Lemma str_in_false (p t : str) : ~ Occurs p t -> str_in p t = false.
Proof.
  intros H. destruct (str_in p t) eqn:E; [|reflexivity].
  now apply str_in_spec in E.
Qed.

Lemma str_in_true (p t : str) : str_in p t = true -> Occurs p t.
Proof. apply str_in_spec. Qed.

(** C8: a non-empty error text that none of the diagnostic categories
    applies to is returned with its leading and trailing white space
    stripped and otherwise unchanged, whatever the project name and the
    host. *)
Theorem analyze_unmatched_returns_stripped
    (error_output project_name : str) (host : option str) :
  error_output <> "" ->
  Uncategorised error_output ->
  let result := analyze_git_clone_error error_output project_name host in
  result = strip error_output
  /\ (exists lead trail,
        error_output = lead ++ result ++ trail
        /\ all_space lead = true /\ all_space trail = true)
  /\ (forall c, first_char result = Some c -> is_space c = false)
  /\ (forall c, last_char result = Some c -> is_space c = false).
Proof.
  intros Hne (H1 & H2 & H3 & H4 & H5 & H6 & H7) result.
  assert (Hresult : result = strip error_output).
  { subst result. unfold Matches in *.
    apply analyze_no_test_passes.
    - destruct error_output; [contradiction | reflexivity].
    - apply andb_false_iff.
      destruct (str_in "permission denied" (lower error_output)) eqn:Ea;
        [right | now left].
      apply str_in_false. intros Hb. apply H1. split; [|exact Hb].
      now apply str_in_true.
    - now apply str_in_false.
    - now apply str_in_false.
    - apply orb_false_iff. split; apply str_in_false; tauto.
    - apply orb_false_iff. split; apply str_in_false; tauto.
    - apply orb_false_iff. split; apply str_in_false; tauto.
    - now apply matches_anyb_false in H7. }
  rewrite Hresult. split; [reflexivity|]. apply strip_spec.
Qed.

Lemma uncategorised_by_computation (s : str) :
  (str_in "permission denied" (lower s) && str_in "publickey" (lower s)
   || str_in "host key verification failed" (lower s)
   || str_in "connection refused" (lower s)
   || str_in "could not resolve hostname" (lower s)
   || str_in "name or service not known" (lower s)
   || str_in "repository not found" (lower s)
   || str_in "does not exist" (lower s)
   || str_in "timeout" (lower s)
   || str_in "timed out" (lower s)
   || matches_anyb ["network"; "connection"; "eof"; "hung up"] s) = false ->
  Uncategorised s.
Proof.
  intros H. unfold Uncategorised, Matches.
  repeat (apply orb_false_iff in H; destruct H as [H ?]).
  apply andb_false_iff in H.
  repeat split;
    try (intros [Ha|Ha]; apply str_in_spec in Ha; congruence);
    try (intros Ha; apply str_in_spec in Ha; congruence).
  - intros [Ha Hb]. apply str_in_spec in Ha, Hb. destruct H; congruence.
  - now apply matches_anyb_false.
Qed.

Lemma analyze_unmatched_returns_stripped_witness :
  analyze_git_clone_error "  Some completely unknown error message  "
    "test-project" (Some "gerrit.example.org")
  = "Some completely unknown error message".
Proof.
  refine (proj1 (analyze_unmatched_returns_stripped
                   "  Some completely unknown error message  "
                   "test-project" (Some "gerrit.example.org") _ _)).
  - discriminate.
  - apply uncategorised_by_computation. reflexivity.
Defined.

End Diagnostics.

(** ** The repository queries *)

Module RepositoryQueries.
Import PyStr GitUtils GitProps.

(** One proof for the four queries: they open with the same two checks
    and close with the same three handlers. *)
Ltac query_contract :=
  intros ? ?; unfold bind; repeat split;
  [ intros ->; cbn [negb]; eexists; reflexivity
  | intros -> ->; cbn [negb]; eexists; reflexivity
  | intros -> ->; cbn [negb];
    unfold run_fails, subprocess_run, bind, try_except;
    match goal with
    | |- context [spawn ?m ?args ?limit] =>
        destruct (spawn m args limit) as [completed|raised]
    end;
    [ match goal with
      | |- context [(returncode ?c =? 0)%Z] =>
          destruct (returncode c =? 0)%Z eqn:?
      end;
      cbn [negb andb]; eexists; (split; [reflexivity|]); intros ?;
      [ match goal with
        | Hcode : (_ =? 0)%Z = true |- _ =>
            apply Z.eqb_eq in Hcode; contradiction
        end
      | reflexivity ]
    | match goal with
      | e : exn |- _ => destruct e
      end;
      eexists; (split; [reflexivity|]); reflexivity ]
  | intros ? ->; reflexivity
  | intros ? -> ->; reflexivity ].

Lemma get_current_commit_sha_contract :
  ErrorContract get_current_commit_sha
    (fun p => ["git"; "-C"; str_of_path p; "rev-parse"; "HEAD"]) None.
Proof. unfold get_current_commit_sha. query_contract. Qed.

Lemma get_current_branch_contract :
  ErrorContract get_current_branch
    (fun p => ["git"; "-C"; str_of_path p; "symbolic-ref"; "--short"; "HEAD"])
    None.
Proof. unfold get_current_branch. query_contract. Qed.

Lemma is_repo_dirty_contract :
  ErrorContract is_repo_dirty
    (fun p => ["git"; "-C"; str_of_path p; "status"; "--porcelain"]) false.
Proof. unfold is_repo_dirty. query_contract. Qed.

Lemma get_remote_url_contract (remote : str) :
  ErrorContract (fun w p => get_remote_url w p remote)
    (fun p => ["git"; "-C"; str_of_path p; "remote"; "get-url"; remote]) None.
Proof. unfold get_remote_url. query_contract. Qed.

(** C10, as stated, fails: the tests of the file system are made outside
    the [try] blocks, and what they raise comes out of the query.  The
    directory below is there, and looking under it for [.git] is refused:
    each query raises [PermissionError], which is neither of the two
    exceptions of the contract nor a result. *)
Lemma query_raises_what_the_file_system_raises :
  let w := unsearchable_directory_world in
  let locked := "/srv/locked" in
  path_exists w locked = Return true
  /\ path_is_dir w locked = Return true
  /\ get_current_commit_sha w locked = Raise (OtherException "PermissionError")
  /\ get_current_branch w locked = Raise (OtherException "PermissionError")
  /\ is_repo_dirty w locked = Raise (OtherException "PermissionError")
  /\ get_remote_url w locked "origin"
     = Raise (OtherException "PermissionError").
Proof. cbv zeta. repeat split; reflexivity. Qed.

(** C10, amended: the four repository queries keep one error contract:
    each raises [FileNotFoundError] when the path is found missing,
    raises [ValueError] when the path is found to exist and found not to
    be a git repository, and on a repository returns without raising,
    every failure of the git command it runs (a non-zero exit, a timeout,
    any other exception) giving its benign answer: [None], or [False]
    for [is_repo_dirty]; an exception raised by a test of the file system
    itself ([Path.exists] or [Path.is_dir], in the query or in
    [is_git_repository]) is not caught and comes out of the query. *)
Theorem repository_queries_error_contract :
  ErrorContract get_current_commit_sha
    (fun p => ["git"; "-C"; str_of_path p; "rev-parse"; "HEAD"]) None
  /\ ErrorContract get_current_branch
       (fun p => ["git"; "-C"; str_of_path p; "symbolic-ref"; "--short";
                  "HEAD"])
       None
  /\ ErrorContract is_repo_dirty
       (fun p => ["git"; "-C"; str_of_path p; "status"; "--porcelain"]) false
  /\ (forall remote,
        ErrorContract (fun w p => get_remote_url w p remote)
          (fun p => ["git"; "-C"; str_of_path p; "remote"; "get-url"; remote])
          None).
Proof.
  split; [exact get_current_commit_sha_contract|].
  split; [exact get_current_branch_contract|].
  split; [exact is_repo_dirty_contract|].
  exact get_remote_url_contract.
Qed.

Lemma repository_queries_error_contract_witness :
  (exists msg,
      get_current_commit_sha empty_world "/tmp/repo"
      = Raise (FileNotFoundError msg))
  /\ (exists msg,
        get_current_branch plain_directory_world "/tmp/work"
        = Raise (ValueError msg))
  /\ (exists v, is_repo_dirty stuck_repository_world "/tmp/repo" = Return v
                /\ v = false)
  /\ (exists v,
        get_remote_url stuck_repository_world "/tmp/repo" "origin" = Return v
        /\ v = None)
  /\ get_current_commit_sha unsearchable_directory_world "/srv/locked"
     = Raise (OtherException "PermissionError").
Proof.
  destruct repository_queries_error_contract as (Hsha & Hbranch & Hdirty & Hurl).
  split; [|split; [|split; [|split]]].
  - exact (proj1 (Hsha empty_world "/tmp/repo") eq_refl).
  - exact (proj1 (proj2 (Hbranch plain_directory_world "/tmp/work"))
             eq_refl eq_refl).
  - destruct (proj1 (proj2 (proj2 (Hdirty stuck_repository_world "/tmp/repo")))
                eq_refl eq_refl) as (v & Hv & Hbenign).
    exists v. split; [exact Hv | exact (Hbenign I)].
  - destruct (proj1 (proj2 (proj2
                (Hurl "origin" stuck_repository_world "/tmp/repo")))
                eq_refl eq_refl) as (v & Hv & Hbenign).
    exists v. split; [exact Hv | exact (Hbenign I)].
  - exact (proj2 (proj2 (proj2 (proj2
             (Hsha unsearchable_directory_world "/srv/locked"))))
             (OtherException "PermissionError") eq_refl eq_refl).
Defined.

End RepositoryQueries.

(** ** The cases of tests/test_clone_utils.py and tests/test_git_utils.py,
       run on the embedding *)

Module UnitTests.
Import PyStr CloneUtils GitUtils GitProps.

Example test_basic_clone_with_mirror :
  build_base_clone_command "ssh://gerrit.example.org:29418/test-project"
    "/tmp/repos/test-project" (mkConfig true None None)
  = ["git"; "clone"; "--no-hardlinks"; "--quiet"; "--mirror";
     "ssh://gerrit.example.org:29418/test-project";
     "/tmp/repos/test-project"].
Proof. reflexivity. Qed.

Example test_clone_without_mirror :
  build_base_clone_command "ssh://gerrit.example.org:29418/test-project"
    "/tmp/repos/test-project" (mkConfig false None None)
  = ["git"; "clone"; "--no-hardlinks"; "--quiet";
     "ssh://gerrit.example.org:29418/test-project";
     "/tmp/repos/test-project"].
Proof. reflexivity. Qed.

Example test_clone_with_depth_and_branch :
  build_base_clone_command "https://github.com/org/repo.git"
    "/tmp/repos/repo" (mkConfig false (Some 5%Z) (Some "feature/test"))
  = ["git"; "clone"; "--no-hardlinks"; "--quiet"; "--depth"; "5";
     "--branch"; "feature/test"; "https://github.com/org/repo.git";
     "/tmp/repos/repo"].
Proof. reflexivity. Qed.

Example test_retryable_errors :
  map is_retryable_git_error
    [ "Connection timeout"; "connection timed out";
      "ssh: connect to host: Connection refused"; "Connection refused";
      "Network is unreachable"; "Temporary failure in name resolution";
      "Could not resolve hostname"; "early EOF";
      "The remote end hung up unexpectedly"; "transfer closed";
      "RPC failed"; "502 Bad Gateway"; "503 Service Unavailable";
      "504 Gateway Timeout" ]
  = repeat true 14.
Proof. reflexivity. Qed.

Example test_not_retryable_errors :
  map is_retryable_git_error
    [ "Permission denied (publickey)"; "Access denied";
      "Authentication failed"; "Invalid credentials"; "Bad credentials";
      "Repository not found"; "fatal: repository 'test' does not exist";
      "Host key verification failed"; ""; "Some unknown error occurred" ]
  = repeat false 10.
Proof. reflexivity. Qed.

Example test_cleanup :
  map should_cleanup_on_clone_error
    [ "Connection timeout"; "Network is unreachable"; "early EOF";
      "Clone timed out after 600s"; ""; "Some random error";
      "Repository not found" ]
  = repeat true 7.
Proof. reflexivity. Qed.

Example test_no_cleanup :
  map should_cleanup_on_clone_error
    [ "Permission denied (publickey)"; "Authentication failed";
      "Access denied"; "Host key verification failed" ]
  = repeat false 4.
Proof. reflexivity. Qed.

Example test_connection_refused :
  analyze_git_clone_error
    "ssh: connect to host gerrit.example.org port 29418: Connection refused"
    "test-project" (Some "gerrit.example.org")
  = "Connection refused for test-project" ++ nl
    ++ "Possible causes:" ++ nl
    ++ "  • SSH service is not running on the server" ++ nl
    ++ "  • Wrong port (currently using 29418)" ++ nl
    ++ "  • Firewall blocking access to gerrit.example.org" ++ nl
    ++ nl ++ "Verify SSH port: nmap -p 22,29418 gerrit.example.org".
Proof. reflexivity. Qed.

Example test_timeout_error :
  str_in "clone_timeout"
    (analyze_git_clone_error
       "fatal: The remote end hung up unexpectedly (timeout)"
       "large-project" None)
  = true.
Proof. reflexivity. Qed.

Example test_generic_network_error :
  analyze_git_clone_error
    "fatal: unable to access 'https://github.com/org/repo.git/': Network error"
    "test-project" None
  = "Network error cloning test-project: fatal: unable to access 'https://github.com/org/repo.git/': Network error".
Proof. reflexivity. Qed.

Example test_empty_error :
  analyze_git_clone_error "" "test-project" None
  = "Clone failed with no error output".
Proof. reflexivity. Qed.

Example test_strip :
  strip (Char 9 " fatal: bad object  " ++ nl)
  = "fatal: bad object".
Proof. reflexivity. Qed.

Example test_non_existent_path :
  is_git_repository empty_world "/tmp/missing" = Return false.
Proof. reflexivity. Qed.

Example test_empty_directory :
  is_git_repository plain_directory_world "/tmp/work" = Return false.
Proof. reflexivity. Qed.

Example test_regular_git_repository :
  is_git_repository stuck_repository_world "/tmp/repo" = Return true.
Proof. reflexivity. Qed.

(** Cases of our own on characters outside ASCII: the Kelvin sign (8490) is
    a capital k, the capital I with a dot is not a plain i, the final sigma
    is chosen by what surrounds it, white space and digits are those of
    Unicode. *)

Example test_lower_beyond_ascii :
  lower ("bro" ++ Char 8490 "en pipe") = "broken pipe"
  /\ lower "CONNECTİON" = "connecti̇on"
  /\ lower "ΣΑΣ Σ" = "σας σ".
Proof. repeat split; reflexivity. Qed.

Example test_kelvin_sign_is_retryable :
  is_retryable_git_error ("bro" ++ Char 8490 "en pipe") = true.
Proof. reflexivity. Qed.

Example test_strip_beyond_ascii :
  analyze_git_clone_error (Char 160 " odd failure" ++ of_list [12288; 31]%N)
    "test-project" None
  = "odd failure".
Proof. reflexivity. Qed.

Example test_port_in_other_digits :
  analyze_git_clone_error "Connection refused on port ٢٢" "p" (Some "h")
  = "Connection refused for p" ++ nl
    ++ "Possible causes:" ++ nl
    ++ "  • SSH service is not running on the server" ++ nl
    ++ "  • Wrong port (currently using ٢٢)" ++ nl
    ++ "  • Firewall blocking access to h" ++ nl
    ++ nl ++ "Verify SSH port: nmap -p 22,29418 h".
Proof. reflexivity. Qed.

Example test_unsearchable_directory :
  is_git_repository unsearchable_directory_world "/srv/locked"
  = Raise (OtherException "PermissionError").
Proof. reflexivity. Qed.

End UnitTests.
(** ** The triage and white space *)

Module Whitespace.
Import PyStr CloneUtils Props MoreProps PyStrFacts Classifier.

(** White space is its own lower-case form. *)
Lemma tolower_space (c : N) : is_space c = true -> tolower c = Char c Empty.
Proof.
  unfold is_space. intros H. apply existsb_exists in H as (w & Hin & Hw).
  apply N.eqb_eq in Hw. subst w. unfold whitespace in Hin. simpl in Hin.
  repeat (destruct Hin as [<-|Hin]; [vm_compute; reflexivity|]).
  contradiction.
Qed.

Lemma lower_flat_blank (s : str) : all_space s = true -> lower_flat s = s.
Proof.
  induction s as [|c s IH]; simpl; [reflexivity|].
  intros H. apply andb_true_iff in H as [Hc Hs].
  now rewrite (tolower_space c Hc), IH.
Qed.

Lemma startswith_app_r (p x t : str) :
  startswith p x = true -> startswith p (x ++ t) = true.
Proof.
  revert x. induction p as [|a p IH]; intros x H.
  - now destruct (x ++ t).
  - destruct x as [|b x]; simpl in *; [discriminate|].
    apply andb_true_iff in H as [-> H]. simpl. now apply IH.
Qed.

Lemma last_char_cons (a b : N) (p : str) :
  last_char (Char a (Char b p)) = last_char (Char b p).
Proof. reflexivity. Qed.

(** A pattern that does not end with white space cannot end inside a
    trailing run of white space. *)
Lemma startswith_trailing (p : str) :
  forall (x t : str) (z : N),
    last_char p = Some z -> is_space z = false -> all_space t = true ->
    startswith p (x ++ t) = true -> startswith p x = true.
Proof.
  induction p as [|a p IH]; intros x t z Hlast Hz Ht H; [discriminate|].
  destruct p as [|b p].
  - simpl in Hlast. injection Hlast as ->.
    destruct x as [|c x]; simpl in *.
    + destruct t as [|d t]; simpl in *; [discriminate|].
      apply andb_true_iff in H as [Hd _]. apply N.eqb_eq in Hd. subst d.
      apply andb_true_iff in Ht as [Hs _]. congruence.
    + apply andb_true_iff in H as [-> _]. reflexivity.
  - rewrite last_char_cons in Hlast.
    destruct x as [|c x].
    + destruct t as [|d t]; [discriminate|].
      cbn [str_app startswith] in H.
      apply andb_true_iff in H as [_ H].
      simpl in Ht. apply andb_true_iff in Ht as [_ Ht].
      specialize (IH Empty t z Hlast Hz Ht H). discriminate.
    + cbn [str_app startswith] in H |- *.
      apply andb_true_iff in H as [-> H]. simpl.
      exact (IH x t z Hlast Hz Ht H).
Qed.

Lemma str_in_all_space (p t : str) (z : N) :
  last_char p = Some z -> is_space z = false -> all_space t = true ->
  str_in p t = false.
Proof.
  intros Hlast Hz. induction t as [|d t IH]; intros Ht;
    rewrite str_in_unfold.
  - destruct p; [discriminate | reflexivity].
  - destruct (startswith p (Char d t)) eqn:E.
    + pose proof (startswith_trailing p Empty (Char d t) z
                    Hlast Hz Ht E) as H.
      destruct p; discriminate.
    + simpl in Ht. apply andb_true_iff in Ht as [_ Ht]. now apply IH.
Qed.

Lemma str_in_app_trailing (p x t : str) (z : N) :
  last_char p = Some z -> is_space z = false -> all_space t = true ->
  str_in p (x ++ t) = str_in p x.
Proof.
  intros Hlast Hz Ht. induction x as [|c x IH].
  - simpl. rewrite (str_in_all_space p t z Hlast Hz Ht).
    destruct p; [discriminate | reflexivity].
  - rewrite (str_in_unfold p (Char c x ++ t)), (str_in_unfold p (Char c x)).
    cbn [str_app]. rewrite IH. f_equal.
    destruct (startswith p (Char c x)) eqn:E.
    + exact (startswith_app_r p (Char c x) t E).
    + destruct (startswith p (Char c (x ++ t))) eqn:E'; [|reflexivity].
      pose proof (startswith_trailing p (Char c x) t z Hlast Hz Ht E').
      congruence.
Qed.

Lemma str_in_app_leading (p lead y : str) (a : N) :
  first_char p = Some a -> is_space a = false -> all_space lead = true ->
  str_in p (lead ++ y) = str_in p y.
Proof.
  intros Hfirst Ha. induction lead as [|c lead IH]; [reflexivity|].
  intros H. cbn [all_space] in H. apply andb_true_iff in H as [Hc Hlead].
  cbn [str_app]. rewrite (str_in_unfold p (Char c (lead ++ y))), (IH Hlead).
  destruct p as [|b p]; [discriminate|]. simpl in Hfirst.
  injection Hfirst as ->. cbn [startswith].
  destruct (N.eqb a c) eqn:E; [|reflexivity].
  apply N.eqb_eq in E. congruence.
Qed.

(** White space around a text neither adds nor removes an occurrence of
    a pattern with solid ends. *)
Lemma str_in_blank_margins (p lead y trail : str) :
  solid_ends p = true ->
  all_space lead = true -> all_space trail = true ->
  str_in p (lead ++ y ++ trail) = str_in p y.
Proof.
  unfold solid_ends.
  destruct (first_char p) as [a|] eqn:Ha; [|discriminate].
  destruct (last_char p) as [z|] eqn:Hz; [|discriminate].
  intros H Hlead Htrail. apply andb_true_iff in H as [H1 H2].
  apply negb_true_iff in H1, H2.
  rewrite (str_in_app_leading p lead _ a Ha H1 Hlead).
  exact (str_in_app_trailing p y trail z Hz H2 Htrail).
Qed.

(** Stripping a text neither adds nor removes a match of an ASCII
    pattern with solid ends. *)
Lemma str_in_lower_strip (p s : str) :
  solid_ends p = true -> is_ascii p = true ->
  str_in p (lower (strip s)) = str_in p (lower s).
Proof.
  intros Hsolid Hascii.
  rewrite !(str_in_lower_flat _ _ Hascii).
  destruct (Diagnostics.strip_spec s) as ((lead & trail & Hs & Hl & Ht) & _).
  rewrite Hs at 2. rewrite !lower_flat_app.
  rewrite (lower_flat_blank lead Hl), (lower_flat_blank trail Ht).
  symmetry. now apply str_in_blank_margins.
Qed.

Lemma matches_anyb_strip (ps : list str) (s : str) :
  forallb solid_ends ps = true -> forallb is_ascii ps = true ->
  matches_anyb ps (strip s) = matches_anyb ps s.
Proof.
  unfold matches_anyb.
  induction ps as [|p ps IH]; simpl; [reflexivity|].
  intros H H'. apply andb_true_iff in H as [Hp Hps].
  apply andb_true_iff in H' as [Hp' Hps'].
  now rewrite (str_in_lower_strip p s Hp Hp'), IH.
Qed.

(** X1: leading and trailing white space of an error text (the line feed
    git ends its output with, indentation) has no part in the triage: both
    judgments are the same on the text and on the stripped text. *)
Theorem triage_ignores_surrounding_space (s : str) :
  is_retryable_git_error (strip s) = is_retryable_git_error s
  /\ should_cleanup_on_clone_error (strip s) = should_cleanup_on_clone_error s.
Proof.
  rewrite !is_retryable_git_error_eq, !should_cleanup_on_clone_error_eq.
  split; [|f_equal]; apply matches_anyb_strip; reflexivity.
Qed.

End Whitespace.

(** ** The triage of a text inside more text *)

Module Context.
Import PyStr CloneUtils Props MoreProps PyStrFacts Classifier.

Lemma Occurs_app_r (p x y : str) : Occurs p x -> Occurs p (x ++ y).
Proof.
  intros (before & after & ->). exists before, (after ++ y).
  now rewrite !str_app_assoc.
Qed.

Lemma Occurs_app_l (p x y : str) : Occurs p y -> Occurs p (x ++ y).
Proof.
  intros (before & after & ->). exists (x ++ before), after.
  now rewrite !str_app_assoc.
Qed.

Lemma Occurs_here (p after : str) : Occurs p (p ++ after).
Proof. now exists Empty, after. Qed.

Lemma Occurs_refl (p : str) : Occurs p p.
Proof. exists Empty, Empty. simpl. symmetry. apply str_app_nil_r. Qed.

Lemma MatchesAny_in_context (ps : list str) (a s b : str) :
  forallb is_ascii ps = true ->
  MatchesAny ps s -> MatchesAny ps (a ++ s ++ b).
Proof.
  intros Hascii (p & Hin & Hp). exists p. split; [exact Hin|].
  assert (Hp' : is_ascii p = true).
  { rewrite forallb_forall in Hascii. now apply Hascii. }
  unfold Matches in *.
  apply str_in_spec in Hp. rewrite (str_in_lower_flat _ _ Hp') in Hp.
  apply str_in_spec in Hp.
  apply str_in_spec. rewrite (str_in_lower_flat _ _ Hp'), !lower_flat_app.
  apply str_in_spec. apply Occurs_app_l, Occurs_app_r. exact Hp.
Qed.

(** X2: more output before or after a retryable error text cannot make
    it non-retryable. *)
Theorem retryable_in_context (a s b : str) :
  is_retryable_git_error s = true ->
  is_retryable_git_error (a ++ s ++ b) = true.
Proof.
  rewrite !is_retryable_iff. now apply MatchesAny_in_context.
Qed.

Lemma retryable_in_context_witness :
  is_retryable_git_error
    ("Cloning into 'project'..." ++ nl ++ "fatal: early EOF" ++ nl
     ++ "fatal: index-pack failed")
  = true.
Proof.
  apply (retryable_in_context ("Cloning into 'project'..." ++ nl)
           "fatal: early EOF" (nl ++ "fatal: index-pack failed")).
  reflexivity.
Defined.

(** X3: more output before or after an error text that keeps the
    directory for inspection cannot turn the decision into a clean-up. *)
Theorem kept_in_context (a s b : str) :
  should_cleanup_on_clone_error s = false ->
  should_cleanup_on_clone_error (a ++ s ++ b) = false.
Proof.
  rewrite !keep_directory_iff. now apply MatchesAny_in_context.
Qed.

Lemma kept_in_context_witness :
  should_cleanup_on_clone_error
    ("Cloning into 'project'..." ++ nl ++ "Permission denied (publickey)."
     ++ nl ++ "fatal: Could not read from remote repository.")
  = false.
Proof.
  apply (kept_in_context ("Cloning into 'project'..." ++ nl)
           "Permission denied (publickey)."
           (nl ++ "fatal: Could not read from remote repository.")).
  reflexivity.
Defined.

End Context.

(** ** More on the diagnostic message *)

Module DiagnosticsMore.
Import PyStr CloneUtils Props MoreProps PyStrFacts Context.

Lemma all_space_app (x y : str) :
  all_space (x ++ y) = all_space x && all_space y.
Proof.
  induction x as [|c x IH]; simpl; [reflexivity|].
  now rewrite IH, andb_assoc.
Qed.

Lemma lstrip_all_space (s : str) : all_space s = true -> lstrip s = "".
Proof.
  induction s as [|c s IH]; simpl; [reflexivity|].
  intros H. apply andb_true_iff in H as [-> H]. now apply IH.
Qed.

Lemma strip_all_space (s : str) : all_space s = true -> strip s = "".
Proof. intros H. unfold strip. now rewrite lstrip_all_space. Qed.

Lemma strip_empty_all_space (s : str) : strip s = "" -> all_space s = true.
Proof.
  intros H. destruct (Diagnostics.strip_spec s) as ((lead & trail & Hs & Hl & Ht) & _).
  rewrite H in Hs. rewrite Hs, all_space_app. simpl. now rewrite Hl, Ht.
Qed.

(** No ASCII pattern with a solid end matches white space. *)
Lemma blank_has_no (p s : str) :
  solid_ends p = true -> is_ascii p = true -> all_space s = true ->
  str_in p (lower s) = false.
Proof.
  unfold solid_ends. intros Hp Hascii Hs.
  rewrite (str_in_lower_flat _ _ Hascii), (Whitespace.lower_flat_blank s Hs).
  destruct (first_char p); [|discriminate].
  destruct (last_char p) as [z|] eqn:Hz; [|discriminate].
  apply andb_true_iff in Hp as [_ Hp]. apply negb_true_iff in Hp.
  exact (Whitespace.str_in_all_space p s z Hz Hp Hs).
Qed.

Lemma if_host_not_empty (host : option str) (msg : str)
    (update : str -> str) :
  msg <> "" -> if_host host msg update <> "".
Proof.
  intros Hmsg. unfold if_host. destruct host as [h|]; [|exact Hmsg].
  destruct (truthy h); [|exact Hmsg].
  destruct msg; [contradiction | discriminate].
Qed.

Lemma app_not_empty (x y : str) : x <> "" -> x ++ y <> "".
Proof. destruct x; [contradiction | discriminate]. Qed.

(** The tests of the function on a blank text [s] all fail. *)
Ltac blank_tests s Hs :=
  cbn [existsb];
  repeat match goal with
         | |- context [str_in ?p (lower s)] =>
             rewrite (blank_has_no p s eq_refl eq_refl Hs)
         end;
  reflexivity.

(** X4: the diagnostic is the empty text exactly for an error text that
    is not empty and is all white space (a bare line feed, say): such a
    text is not given the message of the empty error text. *)
Theorem analyze_empty_iff_blank (s project_name : str) (host : option str) :
  analyze_git_clone_error s project_name host = ""
  <-> s <> "" /\ all_space s = true.
Proof.
  split.
  - destruct s as [|c s]; [discriminate|].
    unfold analyze_git_clone_error. cbn [truthy negb].
    intros H. split; [discriminate|]. revert H.
    repeat match goal with
           | |- context [if ?b then _ else _] => destruct b
           end;
      try (intros H; exfalso; revert H;
           repeat first [ apply if_host_not_empty
                        | apply app_not_empty
                        | destruct (re_search_digits_after _ _) ];
           discriminate).
    apply strip_empty_all_space.
  - intros [Hne Hs].
    rewrite Diagnostics.analyze_no_test_passes;
      [ now apply strip_all_space
      | destruct s; [contradiction | reflexivity]
      | blank_tests s Hs .. ].
Qed.

Lemma analyze_empty_iff_blank_witness :
  analyze_git_clone_error (" " ++ nl) "test-project" None = "".
Proof.
  apply (proj2 (analyze_empty_iff_blank (" " ++ nl) "test-project" None)).
  split; [discriminate | reflexivity].
Defined.

Lemma Occurs_if_host (p : str) (host : option str) (msg : str)
    (update : str -> str) :
  Occurs p msg -> Occurs p (if_host host msg update).
Proof.
  intros H. unfold if_host. destruct host as [h|]; [|exact H].
  destruct (truthy h); [|exact H]. now apply Occurs_app_r.
Qed.

(** X5: whenever one of the diagnostic categories applies to an error
    text that is not empty, the message names the project. *)
Theorem analyze_names_project (s project_name : str) (host : option str) :
  s <> "" ->
  ~ Uncategorised s ->
  Occurs project_name (analyze_git_clone_error s project_name host).
Proof.
  intros Hne Hcat. destruct s as [|c s]; [contradiction|].
  unfold analyze_git_clone_error. cbn [truthy negb].
  destruct (str_in "permission denied" (lower (Char c s))
            && str_in "publickey" (lower (Char c s))) eqn:E1.
  { apply Occurs_if_host. do 4 apply Occurs_app_r.
    apply Occurs_app_l, Occurs_here. }
  destruct (str_in "host key verification failed" (lower (Char c s))) eqn:E2.
  { apply Occurs_if_host. do 3 apply Occurs_app_r.
    apply Occurs_app_l, Occurs_here. }
  destruct (str_in "connection refused" (lower (Char c s))) eqn:E3.
  { apply Occurs_if_host.
    destruct (if str_in "port" (lower (Char c s))
              then re_search_digits_after "port " (lower (Char c s))
              else None);
      [apply Occurs_app_r|]; do 2 apply Occurs_app_r;
      apply Occurs_app_l, Occurs_here. }
  destruct (str_in "could not resolve hostname" (lower (Char c s))
            || str_in "name or service not known" (lower (Char c s))) eqn:E4.
  { apply Occurs_if_host. do 4 apply Occurs_app_r.
    apply Occurs_app_l, Occurs_here. }
  destruct (str_in "repository not found" (lower (Char c s))
            || str_in "does not exist" (lower (Char c s))) eqn:E5.
  { do 4 apply Occurs_app_r. apply Occurs_app_l, Occurs_here. }
  destruct (str_in "timeout" (lower (Char c s))
            || str_in "timed out" (lower (Char c s))) eqn:E6.
  { do 5 apply Occurs_app_r. apply Occurs_app_l, Occurs_here. }
  destruct (existsb (fun pattern => str_in pattern (lower (Char c s)))
              ["network"; "connection"; "eof"; "hung up"]) eqn:E7.
  { apply Occurs_app_l, Occurs_here. }
  exfalso. apply Hcat. apply Diagnostics.uncategorised_by_computation.
  apply orb_false_iff in E4 as [E4a E4b].
  apply orb_false_iff in E5 as [E5a E5b].
  apply orb_false_iff in E6 as [E6a E6b].
  unfold matches_anyb.
  now rewrite E1, E2, E3, E4a, E4b, E5a, E5b, E6a, E6b, E7.
Qed.

Lemma analyze_names_project_witness :
  Occurs "infra/ci-tools"
    (analyze_git_clone_error "ssh: Could not resolve hostname gerrit.invalid"
       "infra/ci-tools" (Some "gerrit.invalid")).
Proof.
  apply analyze_names_project; [discriminate|].
  intros (_ & _ & _ & H & _). apply H. left.
  apply str_in_spec. reflexivity.
Defined.

(** X15: when a host is given (and is not the empty text) and the error
    text falls in one of the four categories that carry a remedy for the
    host (SSH key, host key, connection refused, DNS), the message names
    the host. *)
Theorem analyze_names_host (s project_name host : str) :
  host <> "" ->
  (Matches "permission denied" s /\ Matches "publickey" s)
  \/ Matches "host key verification failed" s
  \/ Matches "connection refused" s
  \/ Matches "could not resolve hostname" s
  \/ Matches "name or service not known" s ->
  Occurs host (analyze_git_clone_error s project_name (Some host)).
Proof.
  intros Hhost Hcat.
  assert (Hne : s <> "").
  { intros ->. unfold Matches in Hcat. simpl in Hcat.
    assert (Hno : forall p, p <> "" -> ~ Occurs p "").
    { intros p Hp (before & after & E). destruct before; [|discriminate].
      destruct p; [contradiction | discriminate]. }
    destruct Hcat as [[H _]|[H|[H|[H|H]]]]; revert H; apply Hno; discriminate. }
  destruct s as [|c s]; [contradiction|].
  assert (Hgiven : forall msg update,
             Occurs host (update host) ->
             Occurs host (if_host (Some host) msg update)).
  { intros msg update H. unfold if_host.
    destruct host; [contradiction|]. cbn [truthy]. now apply Occurs_app_l. }
  unfold analyze_git_clone_error. cbn [truthy negb].
  unfold Matches in Hcat. rewrite <- !str_in_spec in Hcat.
  destruct (str_in "permission denied" (lower (Char c s))
            && str_in "publickey" (lower (Char c s))) eqn:E1.
  { apply Hgiven. do 2 apply Occurs_app_l. apply Occurs_refl. }
  destruct (str_in "host key verification failed" (lower (Char c s))) eqn:E2.
  { apply Hgiven. do 2 apply Occurs_app_l. apply Occurs_refl. }
  destruct (str_in "connection refused" (lower (Char c s))) eqn:E3.
  { apply Hgiven. do 3 apply Occurs_app_l. apply Occurs_refl. }
  destruct (str_in "could not resolve hostname" (lower (Char c s))
            || str_in "name or service not known" (lower (Char c s))) eqn:E4.
  { apply Hgiven. do 2 apply Occurs_app_l. apply Occurs_refl. }
  exfalso. apply orb_false_iff in E4 as [E4a E4b].
  destruct Hcat as [[H1 H2]|[H|[H|[H|H]]]]; try congruence.
  rewrite H1, H2 in E1. discriminate.
Qed.

Lemma analyze_names_host_witness :
  Occurs "gerrit.example.org"
    (analyze_git_clone_error "Host key verification failed." "test-project"
       (Some "gerrit.example.org")).
Proof.
  apply analyze_names_host; [discriminate|].
  right. left. apply str_in_spec. reflexivity.
Defined.

End DiagnosticsMore.

(** ** The port shown by the connection-refused diagnostic *)

Module PortExtraction.
Import PyStr CloneUtils Props MoreProps PyStrFacts Context.

Lemma take_digits_spec (s : str) :
  exists after,
    s = take_digits s ++ after
    /\ all_digits (take_digits s) = true
    /\ starts_with_digit after = false.
Proof.
  induction s as [|c s (after & Hs & Hd & Ha)]; simpl.
  - now exists Empty.
  - destruct (is_digit c) eqn:Hc.
    + exists after. simpl. rewrite Hc, Hd. now rewrite <- Hs.
    + exists (Char c s). simpl. now rewrite Hc.
Qed.

Lemma drop_app (x y : str) : drop (str_length x) (x ++ y) = y.
Proof. induction x as [|c x IH]; simpl; [now destruct y | exact IH]. Qed.

Lemma str_length_app (x y : str) :
  str_length (x ++ y) = str_length x + str_length y.
Proof. induction x as [|c x IH]; simpl; [reflexivity | now rewrite IH]. Qed.

Lemma re_search_unfold (lit s : str) :
  re_search_digits_after lit s =
  match match_here lit s with
  | Char _ _ => Some (match_here lit s)
  | Empty =>
      match s with
      | Empty => None
      | Char _ r => re_search_digits_after lit r
      end
  end.
Proof. destruct s; reflexivity. Qed.

Lemma match_here_digit (lit after : str) (c : N) :
  is_digit c = true -> match_here lit (lit ++ Char c after) <> "".
Proof.
  intros Hc. unfold match_here.
  rewrite startswith_app, drop_app. simpl. rewrite Hc. discriminate.
Qed.

Lemma match_here_sound (lit s : str) (c : N) (d : str) :
  match_here lit s = Char c d ->
  exists after,
    s = lit ++ Char c d ++ after
    /\ all_digits (Char c d) = true
    /\ starts_with_digit after = false.
Proof.
  unfold match_here. destruct (startswith lit s) eqn:E; [|discriminate].
  destruct (startswith_inv _ _ E) as [rest ->]. rewrite drop_app.
  intros H. destruct (take_digits_spec rest) as (after & Hr & Hd & Ha).
  rewrite H in Hr, Hd. exists after. now rewrite Hr at 1.
Qed.

(** What the search returns: the digits after the leftmost place where
    the literal is followed by a digit, all of them; nothing exactly when
    there is no such place. *)
Lemma re_search_spec (lit : str) :
  forall l : str,
    match re_search_digits_after lit l with
    | Some d =>
        d <> ""
        /\ all_digits d = true
        /\ exists before after,
             l = before ++ lit ++ d ++ after
             /\ starts_with_digit after = false
             /\ (forall before' c after',
                   is_digit c = true ->
                   l = before' ++ lit ++ Char c after' ->
                   str_length before <= str_length before')
    | None =>
        forall before c after,
          is_digit c = true -> l <> before ++ lit ++ Char c after
    end.
Proof.
  induction l as [|a r IH]; rewrite re_search_unfold.
  - assert (H : match_here lit "" = "")
      by (unfold match_here; destruct lit; reflexivity).
    rewrite H. intros before c after _ E.
    destruct before; [destruct lit|]; discriminate.
  - destruct (match_here lit (Char a r)) as [|c d] eqn:Hhere.
    + destruct (re_search_digits_after lit r) as [d|] eqn:Hr.
      * destruct IH as (Hd & Hdigits & before & after & Hl & Hafter & Hleft).
        split; [exact Hd|]. split; [exact Hdigits|].
        exists (Char a before), after. split; [now rewrite Hl at 1|].
        split; [exact Hafter|].
        intros before' c after' Hc E.
        destruct before' as [|b before'].
        -- simpl in E. pose proof (match_here_digit lit after' c Hc) as Hne.
           rewrite <- E in Hne. contradiction.
        -- simpl in E. injection E as _ E. simpl.
           apply le_n_S. exact (Hleft before' c after' Hc E).
      * intros before c after Hc E.
        destruct before as [|b before].
        -- simpl in E. pose proof (match_here_digit lit after c Hc) as Hne.
           rewrite <- E in Hne. contradiction.
        -- simpl in E. injection E as _ E. exact (IH before c after Hc E).
    + destruct (match_here_sound _ _ _ _ Hhere) as (after & Hl & Hdigits & Hafter).
      split; [discriminate|]. split; [exact Hdigits|].
      exists Empty, after. split; [exact Hl|]. split; [exact Hafter|].
      intros. apply Nat.le_0_l.
Qed.

Lemma port_guard (error_lower : str) :
  (if str_in "port" error_lower
   then re_search_digits_after "port " error_lower
   else None)
  = re_search_digits_after "port " error_lower.
Proof.
  destruct (str_in "port" error_lower) eqn:E; [reflexivity|].
  pose proof (re_search_spec "port " error_lower) as H.
  destruct (re_search_digits_after "port " error_lower) as [d|]; [|reflexivity].
  destruct H as (_ & _ & before & after & Hl & _).
  assert (Hin : str_in "port" error_lower = true).
  { apply str_in_spec. exists before, (" " ++ d ++ after). exact Hl. }
  congruence.
Qed.

Lemma app_inv_same_length (x x' y y' : str) :
  x ++ y = x' ++ y' -> str_length x = str_length x' -> x = x' /\ y = y'.
Proof.
  revert x'. induction x as [|c x IH]; intros [|c' x'] H Hlen;
    simpl in *; try discriminate; [auto|].
  injection H as -> H. injection Hlen as Hlen.
  destruct (IH x' H Hlen) as [-> ->]. auto.
Qed.

(** A run of digits that ends where the digits end is the only one at
    its place. *)
Lemma digit_run_unique (d : str) :
  forall d' after after',
    all_digits d = true -> all_digits d' = true ->
    starts_with_digit after = false -> starts_with_digit after' = false ->
    d ++ after = d' ++ after' -> d = d'.
Proof.
  induction d as [|c d IH]; intros [|c' d'] after after' Hd Hd' Ha Ha' H;
    simpl in *.
  - reflexivity.
  - subst after. simpl in Ha. apply andb_true_iff in Hd' as [Hc _]. congruence.
  - subst after'. simpl in Ha'. apply andb_true_iff in Hd as [Hc _]. congruence.
  - injection H as -> H.
    apply andb_true_iff in Hd as [_ Hd]. apply andb_true_iff in Hd' as [_ Hd'].
    f_equal. exact (IH d' after after' Hd Hd' Ha Ha' H).
Qed.

(** The search finds the digits of the leftmost place where the literal
    is followed by a digit. *)
Lemma re_search_leftmost (lit l before port after : str) :
  l = before ++ lit ++ port ++ after ->
  port <> "" -> all_digits port = true -> starts_with_digit after = false ->
  (forall before' c after',
      is_digit c = true -> l = before' ++ lit ++ Char c after' ->
      str_length before <= str_length before') ->
  re_search_digits_after lit l = Some port.
Proof.
  intros Hl Hne Hdigits Hafter Hleft.
  destruct port as [|c port]; [contradiction|].
  assert (Hc : is_digit c = true)
    by (simpl in Hdigits; now apply andb_true_iff in Hdigits as [? _]).
  pose proof (re_search_spec lit l) as H.
  destruct (re_search_digits_after lit l) as [d|].
  - destruct H as (Hd & Hdd & before0 & after0 & Hl0 & Hafter0 & Hleft0).
    destruct d as [|c0 d]; [contradiction|].
    assert (Hc0 : is_digit c0 = true)
      by (simpl in Hdd; now apply andb_true_iff in Hdd as [? _]).
    assert (Hlen : str_length before0 = str_length before).
    { apply Nat.le_antisymm.
      - apply (Hleft0 before c (port ++ after) Hc). exact Hl.
      - apply (Hleft before0 c0 (d ++ after0) Hc0). exact Hl0. }
    rewrite Hl in Hl0.
    destruct (app_inv_same_length _ _ _ _ Hl0 (eq_sym Hlen)) as [_ E].
    assert (Hlit : str_length lit = str_length lit) by reflexivity.
    destruct (app_inv_same_length _ _ _ _ E Hlit) as [_ E'].
    f_equal. symmetry.
    exact (digit_run_unique _ _ _ _ Hdigits Hdd Hafter Hafter0 E').
  - exfalso. exact (H before c (port ++ after) Hc Hl).
Qed.

Lemma not_matches_false (p s : str) :
  ~ Matches p s -> str_in p (lower s) = false.
Proof.
  intros H. destruct (str_in p (lower s)) eqn:E; [|reflexivity].
  exfalso. apply H. now apply str_in_spec.
Qed.

(** X6: the port in the connection-refused diagnostic.  For an error text
    of that category (one that is neither an SSH key nor a host key
    failure and matches "connection refused"): when the lower-cased text
    has "port " followed by a digit, the message has the line "Wrong port
    (currently using N)", N being the whole run of digits after the
    leftmost such "port "; when it has none, the message has no such
    line: it is the three opening lines and the remedy for the host. *)
Theorem port_extraction (s project_name : str) (host : option str) :
  ~ (Matches "permission denied" s /\ Matches "publickey" s) ->
  ~ Matches "host key verification failed" s ->
  Matches "connection refused" s ->
  (forall before port after,
      lower s = before ++ "port " ++ port ++ after ->
      port <> "" -> all_digits port = true ->
      starts_with_digit after = false ->
      (forall before' c after',
          is_digit c = true ->
          lower s = before' ++ "port " ++ Char c after' ->
          str_length before <= str_length before') ->
      Occurs ("  • Wrong port (currently using " ++ port ++ ")" ++ nl)
        (analyze_git_clone_error s project_name host))
  /\ ((forall before c after,
         is_digit c = true ->
         lower s <> before ++ "port " ++ Char c after) ->
      analyze_git_clone_error s project_name host =
      if_host host
        ((("Connection refused for " ++ project_name ++ nl)
          ++ "Possible causes:" ++ nl)
         ++ "  • SSH service is not running on the server" ++ nl)
        (fun h =>
           ("  • Firewall blocking access to " ++ h ++ nl)
           ++ nl ++ "Verify SSH port: nmap -p 22,29418 " ++ h)).
Proof.
  intros H1 H2 H3.
  assert (Hne : truthy s = true).
  { destruct s; [|reflexivity]. exfalso.
    destruct H3 as (before & after & E). destruct before; discriminate. }
  assert (E1 : str_in "permission denied" (lower s)
               && str_in "publickey" (lower s) = false).
  { apply andb_false_iff.
    destruct (str_in "permission denied" (lower s)) eqn:Ea; [right | now left].
    apply not_matches_false. intros Hb. apply H1.
    split; [now apply str_in_spec | exact Hb]. }
  pose proof (not_matches_false _ _ H2) as E2.
  assert (E3 : str_in "connection refused" (lower s) = true)
    by now apply str_in_spec.
  unfold analyze_git_clone_error.
  rewrite Hne, E1, E2, E3, port_guard. cbn [negb].
  split.
  - intros before port after Hl Hport Hdigits Hafter Hleft.
    rewrite (re_search_leftmost _ _ _ _ _ Hl Hport Hdigits Hafter Hleft).
    apply DiagnosticsMore.Occurs_if_host. apply Occurs_app_l.
    rewrite <- !str_app_assoc. apply Occurs_refl.
  - intros Hnone.
    pose proof (re_search_spec "port " (lower s)) as H.
    destruct (re_search_digits_after "port " (lower s)) as [[|c d]|];
      [ now destruct H | | reflexivity ].
    exfalso. destruct H as (_ & Hd & before & after & Hl & _).
    simpl in Hd. apply andb_true_iff in Hd as [Hc _].
    exact (Hnone before c (d ++ after) Hc Hl).
Qed.

Lemma port_extraction_witness :
  Occurs ("  • Wrong port (currently using 29418)" ++ nl)
    (analyze_git_clone_error
       "ssh: connect to host gerrit.example.org port 29418: Connection refused"
       "test-project" (Some "gerrit.example.org")).
Proof.
  pose proof (re_search_spec "port "
    (lower "ssh: connect to host gerrit.example.org port 29418: Connection refused"))
    as H.
  assert (E : re_search_digits_after "port "
    (lower "ssh: connect to host gerrit.example.org port 29418: Connection refused")
    = Some "29418") by (vm_compute; reflexivity).
  rewrite E in H.
  destruct H as (Hd & Hdigits & before & after & Hl & Hafter & Hleft).
  refine (proj1 (port_extraction
    "ssh: connect to host gerrit.example.org port 29418: Connection refused"
    "test-project" (Some "gerrit.example.org") _ _ _)
    before "29418" after Hl Hd Hdigits Hafter Hleft).
  - intros [Ha _]. apply str_in_spec in Ha. vm_compute in Ha. discriminate Ha.
  - intros Ha. apply str_in_spec in Ha. vm_compute in Ha. discriminate Ha.
  - apply str_in_spec. vm_compute. reflexivity.
Defined.

(** X7: the test ["port" in error_lower] that guards the search changes
    nothing: the search finds a port only in a text that has "port". *)
Theorem port_guard_is_redundant (error_lower : str) :
  (if str_in "port" error_lower
   then re_search_digits_after "port " error_lower
   else None)
  = re_search_digits_after "port " error_lower.
Proof. exact (port_guard error_lower). Qed.

End PortExtraction.

(** ** More on the clone command *)

Module CloneCommandMore.
Import PyStr CloneUtils.

Lemma to_int_not_nil (z : Z) :
  Z.to_int z <> Decimal.Pos Decimal.Nil /\ Z.to_int z <> Decimal.Neg Decimal.Nil.
Proof.
  split; intros H; pose proof (f_equal Z.of_int H) as E;
    rewrite DecimalZ.of_to in E; simpl in E; subst z;
    vm_compute in H; discriminate H.
Qed.

Lemma of_ascii_inj (a b : String.string) : of_ascii a = of_ascii b -> a = b.
Proof.
  revert b. induction a as [|c a IH]; intros [|d b] H; simpl in H;
    try discriminate; [reflexivity|].
  injection H as Hc H. f_equal; [|now apply IH].
  rewrite <- (ascii_N_embedding c), <- (ascii_N_embedding d). now rewrite Hc.
Qed.

(** [str] of an [int] tells the integer. *)
Lemma str_of_int_inj (a b : Z) : str_of_int a = str_of_int b -> a = b.
Proof.
  unfold str_of_int. intros H. apply of_ascii_inj in H.
  destruct (to_int_not_nil a) as [Ha1 Ha2], (to_int_not_nil b) as [Hb1 Hb2].
  pose proof (NilZero.isi (Z.to_int a) Ha1 Ha2) as Ea.
  pose proof (NilZero.isi (Z.to_int b) Hb1 Hb2) as Eb.
  rewrite H in Ea. rewrite Ea in Eb. injection Eb as Eb.
  now apply DecimalZ.to_int_inj.
Qed.

(** [str] of an [int] is never the text of the mirror option. *)
Lemma str_of_int_not_mirror (d : Z) : str_of_int d <> "--mirror".
Proof.
  unfold str_of_int. destruct (Z.to_int d) as [u|u]; simpl.
  - destruct u; discriminate.
  - intros [= H]. destruct u; discriminate.
Qed.

(** X8: the command tells what it was built from: two calls give the same
    command only for the same clone URL, the same destination and the
    same mode, and outside mirror mode the same depth and branch. *)
Theorem command_determines_inputs
    (clone_url clone_url' : str) (target_path target_path' : Path)
    (config config' : Config) :
  build_base_clone_command clone_url target_path config
  = build_base_clone_command clone_url' target_path' config' ->
  clone_url = clone_url'
  /\ str_of_path target_path = str_of_path target_path'
  /\ mirror config = mirror config'
  /\ (mirror config = false ->
      depth config = depth config' /\ branch config = branch config').
Proof.
  destruct config as [m d b], config' as [m' d' b'].
  unfold build_base_clone_command, extend, append, str_of_path. simpl.
  destruct m, m'; [| destruct d' as [z'|], b' as [n'|]
                   | destruct d as [z|], b as [n|]
                   | destruct d as [z|], b as [n|], d' as [z'|], b' as [n'|]];
    simpl; intros H; injection H; intros; subst;
    try discriminate; try congruence;
    (split; [reflexivity|]); (split; [reflexivity|]);
    (split; [reflexivity|]); intros Hm; try discriminate Hm;
    split; try reflexivity; f_equal; now apply str_of_int_inj.
Qed.

Lemma command_determines_inputs_witness :
  "ssh://gerrit.example.org:29418/project" = "ssh://gerrit.example.org:29418/project"
  /\ mirror (mkConfig false (Some 1%Z) None) = mirror (mkConfig false (Some 1%Z) None).
Proof.
  destruct (command_determines_inputs
              "ssh://gerrit.example.org:29418/project"
              "ssh://gerrit.example.org:29418/project"
              "/tmp/repos/project" "/tmp/repos/project"
              (mkConfig false (Some 1%Z) None) (mkConfig false (Some 1%Z) None)
              eq_refl) as (Hurl & _ & Hmirror & _).
  exact (conj Hurl Hmirror).
Defined.

(** X9: outside mirror mode the builder never adds "--mirror": that text
    is a word of the command only where the clone URL, the destination
    or the configured branch name is that very text. *)
Theorem plain_command_has_no_mirror
    (clone_url : str) (target_path : Path) (config : Config) :
  mirror config = false ->
  In "--mirror" (build_base_clone_command clone_url target_path config) ->
  clone_url = "--mirror"
  \/ str_of_path target_path = "--mirror"
  \/ branch config = Some "--mirror".
Proof.
  intros Hm. rewrite (CloneCommand.build_plain _ _ _ Hm).
  destruct (depth config) as [d|], (branch config) as [b|]; simpl;
    intuition (try discriminate; try congruence; subst; auto).
  all: exfalso; eapply str_of_int_not_mirror; eassumption.
Qed.

Lemma plain_command_has_no_mirror_witness :
  ~ In "--mirror"
      (build_base_clone_command "https://github.com/org/repo.git"
         "/tmp/repos/repo" (mkConfig false (Some 1%Z) (Some "develop"))).
Proof.
  intros Hin.
  destruct (plain_command_has_no_mirror "https://github.com/org/repo.git"
              "/tmp/repos/repo" (mkConfig false (Some 1%Z) (Some "develop"))
              eq_refl Hin) as [H|[H|H]]; discriminate.
Defined.

End CloneCommandMore.

(** ** More on the repository queries *)

Module RepositoryQueriesMore.
Import PyStr GitUtils GitProps MoreProps PyStrFacts.

Lemma completed_eta (c : CompletedProcess) :
  c = mkCompleted (returncode c) (stdout c).
Proof. now destruct c. Qed.

Lemma all_of_map {A B : Type} (test : B -> result bool) (f : A -> B)
    (items : list A) :
  all_of (fun x => test (f x)) items = all_of test (map f items).
Proof.
  induction items as [|x items IH]; simpl; [reflexivity|].
  unfold bind. destruct (test (f x)) as [[|]|e]; auto.
Qed.

Lemma all_of_true_iff {A : Type} (test : A -> result bool) (items : list A) :
  all_of test items = Return true
  <-> forall x, In x items -> test x = Return true.
Proof.
  induction items as [|x items IH]; simpl.
  - split; [intros _ y [] | reflexivity].
  - unfold bind. destruct (test x) as [[|]|e] eqn:E.
    + rewrite IH. split.
      * intros H y [<-|Hy]; auto.
      * intros H y Hy. apply H. now right.
    + split; [discriminate|]. intros H.
      specialize (H x (or_introl eq_refl)). congruence.
    + split; [discriminate|]. intros H.
      specialize (H x (or_introl eq_refl)). congruence.
Qed.

Lemma all_of_false_iff {A : Type} (test : A -> result bool) (items : list A) :
  all_of test items = Return false
  <-> exists found missing rest,
        items = (found ++ missing :: rest)%list
        /\ (forall x, In x found -> test x = Return true)
        /\ test missing = Return false.
Proof.
  induction items as [|x items IH]; simpl.
  - split; [discriminate|]. intros (found & missing & rest & E & _).
    destruct found; discriminate.
  - unfold bind. destruct (test x) as [[|]|e] eqn:E.
    + rewrite IH. split.
      * intros (found & missing & rest & -> & Hfound & Hmissing).
        exists (x :: found), missing, rest. repeat split; trivial.
        intros y [<-|Hy]; auto.
      * intros (found & missing & rest & Hitems & Hfound & Hmissing).
        destruct found as [|y found]; simpl in Hitems;
          injection Hitems as Hx Hrest; [congruence|].
        exists found, missing, rest. repeat split; trivial.
        intros z Hz. apply Hfound. now right.
    + split; [|reflexivity]. intros _.
      exists [], x, items. repeat split; trivial. intros y [].
    + split; [discriminate|].
      intros (found & missing & rest & Hitems & Hfound & Hmissing).
      destruct found as [|y found]; simpl in Hitems;
        injection Hitems as Hx Hrest; [congruence|].
      specialize (Hfound y (or_introl eq_refl)). congruence.
Qed.

(** The guarded run of the probe never raises. *)
Lemma probe_result (w : World) (repo_path : Path) :
  try_except
    (result <-
       subprocess_run w
         ["git"; "-C"; str_of_path repo_path; "rev-parse";
          "--is-bare-repository"] false 5 ;;
     if (returncode result =? 0)%Z && str_eqb (strip (stdout result)) "true"
     then Return true
     else Return false)
    (fun _ => Return false)
  = Return (probe_accepts w repo_path).
Proof.
  unfold probe_accepts, bare_probe, subprocess_run, bind, try_except.
  destruct (spawn w _ 5%Z) as [c|e]; [|reflexivity].
  cbn [andb negb].
  now destruct ((returncode c =? 0)%Z && str_eqb (strip (stdout c)) "true").
Qed.

(** The function is its tests of the disk, and then the probe. *)
Lemma is_git_repository_eq (w : World) (repo_path : Path) :
  is_git_repository w repo_path =
  (present <- path_exists w repo_path ;;
   if negb present then Return false
   else
     is_dir <- path_is_dir w repo_path ;;
     if negb is_dir then Return false
     else
       git_dir_present <- path_exists w (joinpath repo_path ".git") ;;
       if git_dir_present then Return true
       else
         has_markers <- all_of (path_exists w) (bare_marker_paths repo_path) ;;
         if has_markers then Return true
         else Return (probe_accepts w repo_path)).
Proof.
  unfold is_git_repository. rewrite probe_result.
  unfold bare_marker_paths. now rewrite <- all_of_map.
Qed.

Lemma probe_accepts_iff (w : World) (repo_path : Path) :
  probe_accepts w repo_path = true <-> git_says_bare w repo_path.
Proof.
  unfold probe_accepts, git_says_bare, run_prints. split.
  - destruct (spawn w (bare_probe repo_path) 5) as [c|e]; [|discriminate].
    intros H. apply andb_true_iff in H as [Hc Hout].
    apply Z.eqb_eq in Hc. apply str_eqb_eq in Hout.
    exists (stdout c). split; [|exact Hout].
    rewrite (completed_eta c) at 1. now rewrite Hc.
  - intros (out & -> & Hout). simpl. rewrite Hout. reflexivity.
Qed.

(** X10: a path is found to be a git repository (the function returns
    [True]) exactly when it is found to exist and to be a directory, and
    then either its [.git] entry is found, or that entry is found missing
    and the four entries HEAD, objects, refs and config are found, or one
    of these is found missing, those before it having been found, and
    git, asked, answers "true" with exit code 0.  A path found missing or
    found not to be a directory is never a repository, whatever git
    says. *)
Theorem is_git_repository_iff (w : World) (repo_path : Path) :
  is_git_repository w repo_path = Return true
  <-> path_exists w repo_path = Return true
      /\ path_is_dir w repo_path = Return true
      /\ (path_exists w (joinpath repo_path ".git") = Return true
          \/ (path_exists w (joinpath repo_path ".git") = Return false
              /\ (MarkersPresent w repo_path
                  \/ (MarkerMissing w repo_path
                      /\ git_says_bare w repo_path)))).
Proof.
  rewrite is_git_repository_eq. unfold bind, MarkersPresent, MarkerMissing.
  rewrite <- probe_accepts_iff, <- all_of_true_iff, <- all_of_false_iff.
  destruct (path_exists w repo_path) as [[|]|e];
    [| split; [discriminate | intros (H & _); discriminate H] ..].
  destruct (path_is_dir w repo_path) as [[|]|e]; cbn [negb];
    [| split; [discriminate | intros (_ & H & _); discriminate H] ..].
  destruct (path_exists w (joinpath repo_path ".git")) as [[|]|e].
  - split; auto.
  - destruct (all_of (path_exists w) (bare_marker_paths repo_path))
      as [[|]|e] eqn:E.
    + split; auto 6.
    + split.
      * intros [= H]. repeat split. right. split; [reflexivity|]. right. auto.
      * intros (_ & _ & [H|(_ & [H|(_ & H)])]); try discriminate.
        now rewrite H.
    + split; [discriminate|].
      intros (_ & _ & [H|(_ & [H|(H & _)])]); discriminate.
  - split; [discriminate|].
    intros (_ & _ & [H|(H & _)]); discriminate.
Qed.

(** X11: when the probe cannot be run, times out, raises anything else
    or ends with a non-zero code, that failure raises nothing: the answer
    of the function is the outcome of its tests of the disk alone (the
    [.git] entry or the four bare markers, on an existing directory),
    which is also the only place an exception can come from. *)
Theorem is_git_repository_when_git_fails (w : World) (repo_path : Path) :
  run_fails w (bare_probe repo_path) ->
  is_git_repository w repo_path = on_disk_repository w repo_path.
Proof.
  intros Hfail. rewrite is_git_repository_eq. unfold on_disk_repository.
  assert (Hprobe : probe_accepts w repo_path = false).
  { unfold probe_accepts. unfold run_fails in Hfail.
    destruct (spawn w (bare_probe repo_path) 5) as [c|e]; [|reflexivity].
    apply Z.eqb_neq in Hfail. now rewrite Hfail. }
  rewrite Hprobe. unfold bind.
  destruct (path_exists w repo_path) as [[|]|e]; try reflexivity.
  destruct (path_is_dir w repo_path) as [[|]|e']; try reflexivity.
  cbn [negb].
  destruct (path_exists w (joinpath repo_path ".git")) as [[|]|e'];
    try reflexivity.
  now destruct (all_of (path_exists w) (bare_marker_paths repo_path))
    as [[|]|e'].
Qed.

Lemma is_git_repository_when_git_fails_witness :
  is_git_repository stuck_repository_world "/tmp/repo" = Return true
  /\ is_git_repository plain_directory_world "/tmp/work" = Return false
  /\ is_git_repository unsearchable_directory_world "/srv/locked"
     = Raise (OtherException "PermissionError").
Proof.
  split; [|split].
  - rewrite (is_git_repository_when_git_fails stuck_repository_world "/tmp/repo");
      [reflexivity | exact I].
  - rewrite (is_git_repository_when_git_fails plain_directory_world "/tmp/work");
      [reflexivity | simpl; discriminate].
  - rewrite (is_git_repository_when_git_fails unsearchable_directory_world
               "/srv/locked");
      [reflexivity | simpl; discriminate].
Defined.

Lemma or_none_some (x answer : str) :
  or_none x = Some answer <-> x = answer /\ answer <> "".
Proof.
  unfold or_none. destruct x as [|c x]; simpl.
  - split; [discriminate | intros [<- H]; contradiction].
  - split; [intros [= <-]; split; [reflexivity | discriminate]
           | intros [<- _]; reflexivity].
Qed.

(** The guarded run the three text queries share. *)
Lemma guarded_run_answer (w : World) (args : list str) (answer : str) :
  try_except
    (bind (subprocess_run w args true 5)
       (fun result => Return (or_none (strip (stdout result)))))
    (fun e =>
       match e with
       | CalledProcessError _ => Return None
       | TimeoutExpired => Return None
       | _ => Return None
       end)
  = Return (Some answer)
  <-> exists out,
        run_prints w args out /\ strip out = answer /\ answer <> "".
Proof.
  unfold run_prints, subprocess_run, bind, try_except.
  destruct (spawn w args 5) as [c|e].
  - destruct (returncode c =? 0)%Z eqn:Hcode; cbn [negb andb].
    + apply Z.eqb_eq in Hcode. split.
      * intros [= H]. apply or_none_some in H as [H1 H2].
        exists (stdout c). rewrite (completed_eta c) at 1.
        now rewrite Hcode.
      * intros (out & [= ->] & H1 & H2). cbn [stdout].
        f_equal. now apply or_none_some.
    + apply Z.eqb_neq in Hcode. split; [discriminate|].
      intros (out & [= ->] & _). now cbn [returncode] in Hcode.
  - split; [destruct e; discriminate|].
    intros (out & H & _). discriminate H.
Qed.

(** One proof for the three queries that answer with a text. *)
Ltac stripped_answer :=
  intros w repo_path answer; unfold bind;
  destruct (path_exists w repo_path) as [[|]|?];
    [| cbn [negb]; split; [discriminate | intros (H & _); discriminate H] ..];
  destruct (is_git_repository w repo_path) as [[|]|?];
    [| cbn [negb]; split;
       [discriminate | intros (_ & H & _); discriminate H] ..];
  cbn [negb]; split;
  [ intros H; apply guarded_run_answer in H; auto
  | intros (_ & _ & H); apply guarded_run_answer; exact H ].

Lemma get_current_commit_sha_answer :
  StrippedAnswer get_current_commit_sha
    (fun p => ["git"; "-C"; str_of_path p; "rev-parse"; "HEAD"]).
Proof. unfold StrippedAnswer, get_current_commit_sha. stripped_answer. Qed.

Lemma get_current_branch_answer :
  StrippedAnswer get_current_branch
    (fun p => ["git"; "-C"; str_of_path p; "symbolic-ref"; "--short"; "HEAD"]).
Proof. unfold StrippedAnswer, get_current_branch. stripped_answer. Qed.

Lemma get_remote_url_answer (remote : str) :
  StrippedAnswer (fun w p => get_remote_url w p remote)
    (fun p => ["git"; "-C"; str_of_path p; "remote"; "get-url"; remote]).
Proof. unfold StrippedAnswer, get_remote_url. stripped_answer. Qed.

(** X12: the commit id, the branch name and the remote URL are answered
    with a text exactly when the path is found to be a repository and the
    git command of the query exits with code 0 having printed more than
    white space; the text is that output with its surrounding white space
    removed, so it is never empty. *)
Theorem text_queries_answer :
  StrippedAnswer get_current_commit_sha
    (fun p => ["git"; "-C"; str_of_path p; "rev-parse"; "HEAD"])
  /\ StrippedAnswer get_current_branch
       (fun p => ["git"; "-C"; str_of_path p; "symbolic-ref"; "--short"; "HEAD"])
  /\ (forall remote,
        StrippedAnswer (fun w p => get_remote_url w p remote)
          (fun p => ["git"; "-C"; str_of_path p; "remote"; "get-url"; remote])).
Proof.
  split; [exact get_current_commit_sha_answer|].
  split; [exact get_current_branch_answer | exact get_remote_url_answer].
Qed.

Lemma text_queries_answer_witness :
  get_current_commit_sha working_repository_world "/tmp/repo"
  = Return (Some "3f786850e387550fdab836ed7e6dc881de23001b").
Proof.
  apply (proj1 text_queries_answer). repeat split.
  exists ("3f786850e387550fdab836ed7e6dc881de23001b" ++ CloneUtils.nl).
  repeat split. discriminate.
Defined.

(** X13: [is_repo_dirty] answers [True] exactly when the path is found to
    be a repository and [git status --porcelain] exits with code 0 having
    printed more than white space. *)
Theorem is_repo_dirty_true_iff (w : World) (repo_path : Path) :
  is_repo_dirty w repo_path = Return true
  <-> path_exists w repo_path = Return true
      /\ is_git_repository w repo_path = Return true
      /\ exists out,
           run_prints w ["git"; "-C"; str_of_path repo_path; "status";
                         "--porcelain"] out
           /\ strip out <> "".
Proof.
  unfold is_repo_dirty, run_prints, bind.
  destruct (path_exists w repo_path) as [[|]|?];
    [| cbn [negb]; split; [discriminate | intros (H & _); discriminate H] ..].
  destruct (is_git_repository w repo_path) as [[|]|?];
    [| cbn [negb]; split;
       [discriminate | intros (_ & H & _); discriminate H] ..].
  cbn [negb]. unfold subprocess_run, bind, try_except.
  destruct (spawn w _ 5%Z) as [c|e].
  - destruct (returncode c =? 0)%Z eqn:Hcode; cbn [negb andb].
    + apply Z.eqb_eq in Hcode. split.
      * intros [= H]. repeat split. exists (stdout c).
        rewrite (completed_eta c) at 1. rewrite Hcode. split; [reflexivity|].
        intros E. rewrite E in H. discriminate H.
      * intros (_ & _ & out & [= ->] & H). cbn [stdout]. f_equal.
        destruct (strip out); [contradiction | reflexivity].
    + apply Z.eqb_neq in Hcode. split; [discriminate|].
      intros (_ & _ & out & [= ->] & _). now cbn [returncode] in Hcode.
  - split; [destruct e; discriminate|].
    intros (_ & _ & out & H & _). discriminate H.
Qed.

(** X14: on a directory that has a [.git] entry the four queries return
    and never raise, whatever git does: missing, stuck or failing. *)
Theorem queries_return_on_working_tree
    (w : World) (repo_path : Path) (remote : str) :
  path_exists w repo_path = Return true ->
  path_is_dir w repo_path = Return true ->
  path_exists w (joinpath repo_path ".git") = Return true ->
  (exists v, get_current_commit_sha w repo_path = Return v)
  /\ (exists v, get_current_branch w repo_path = Return v)
  /\ (exists v, is_repo_dirty w repo_path = Return v)
  /\ (exists v, get_remote_url w repo_path remote = Return v).
Proof.
  intros Hexists Hdir Hgit.
  assert (Hrepo : is_git_repository w repo_path = Return true).
  { rewrite is_git_repository_eq. unfold bind.
    now rewrite Hexists, Hdir, Hgit. }
  pose proof (RepositoryQueries.get_current_commit_sha_contract w repo_path)
    as (_ & _ & Hsha & _).
  pose proof (RepositoryQueries.get_current_branch_contract w repo_path)
    as (_ & _ & Hbranch & _).
  pose proof (RepositoryQueries.is_repo_dirty_contract w repo_path)
    as (_ & _ & Hdirty & _).
  pose proof (RepositoryQueries.get_remote_url_contract remote w repo_path)
    as (_ & _ & Hurl & _).
  destruct (Hsha Hexists Hrepo) as (v1 & H1 & _).
  destruct (Hbranch Hexists Hrepo) as (v2 & H2 & _).
  destruct (Hdirty Hexists Hrepo) as (v3 & H3 & _).
  destruct (Hurl Hexists Hrepo) as (v4 & H4 & _).
  repeat split; eexists; eassumption.
Qed.

Lemma queries_return_on_working_tree_witness :
  (exists v, get_current_commit_sha stuck_repository_world "/tmp/repo" = Return v)
  /\ (exists v, get_current_branch stuck_repository_world "/tmp/repo" = Return v)
  /\ (exists v, is_repo_dirty stuck_repository_world "/tmp/repo" = Return v)
  /\ (exists v,
        get_remote_url stuck_repository_world "/tmp/repo" "origin" = Return v).
Proof.
  apply queries_return_on_working_tree; reflexivity.
Defined.

End RepositoryQueriesMore.

(** ** The two judgments in full *)

Module Precedence.
Import PyStr CloneUtils Props PyStrFacts.

(** X16: the two judgments in full.  An error text is retryable exactly
    when one of the retryable patterns matches it, whatever else matches:
    the list of non-retryable patterns has no part in the answer.  Its
    directory is kept exactly when one of the four inspection patterns
    matches it, whatever else matches. *)
Theorem triage_in_full (s : str) :
  (is_retryable_git_error s = true <-> MatchesAny retryable_patterns s)
  /\ (should_cleanup_on_clone_error s = false
      <-> MatchesAny inspection_patterns s).
Proof.
  split; [apply Classifier.is_retryable_iff | apply Classifier.keep_directory_iff].
Qed.

End Precedence.
